(** * tkp.database.dataset: the mini-ORM of the Transients Key Project

    A shallow embedding of [tkp/database/dataset.py]: the generic
    [DBObject] with its lazy create-or-load identity protocol, and the three
    containers built on it ([DataSet], [Image], [ExtractedSource]).

    Python objects live in a heap of mutable cells addressed by location, so
    that the aliasing between an [Image] and the [DataSet] whose [images] set
    it joins is visible.  Methods are computations in a state-and-exception
    monad whose state survives a raised exception, as in Python. *)

From Stdlib Require Import ZArith QArith Ascii.
From stdpp Require Import gmap strings list fin_maps pretty.

Local Open Scope Z_scope.
Local Open Scope string_scope.

(** ** Values held in a data dictionary or a table cell *)

Inductive value : Type :=
  | VNone                  (* Python None / SQL NULL *)
  | VInt (z : Z)
  | VStr (s : string)
  | VNum (q : Q).          (* a decimal literal such as 1800. or 1e6 *)

#[global] Instance Q_eq_dec : EqDecision Q.
Proof. solve_decision. Defined.

#[global] Instance value_eq_dec : EqDecision value.
Proof. solve_decision. Defined.

(** ** The persisted state *)

Inductive table : Type := tbl_datasets | tbl_images | tbl_extractedsources.

(** One relation: the names of its data columns (the identity column is
    kept apart, as the key of [t_rows]), its rows by identity, and the last
    identity it handed out. *)
Record relation : Type := {
  t_columns : gset string;
  t_rows : gmap Z (gmap string value);
  t_lastid : Z
}.

(** A row of the running catalogue, as far as the variability query reads
    it: the dataset it belongs to and its two variability indices, which are
    undefined ([None]) for a light curve of fewer than two points. *)
Record runcat : Type := {
  rc_id : Z;
  rc_dataset : Z;
  rc_V : option Q;
  rc_eta : option Q
}.

Record dbstate : Type := {
  db_datasets : relation;
  db_images : relation;
  db_extractedsources : relation;
  db_runningcatalog : list runcat
}.

Definition rel (d : dbstate) (t : table) : relation :=
  match t with
  | tbl_datasets => db_datasets d
  | tbl_images => db_images d
  | tbl_extractedsources => db_extractedsources d
  end.

Definition set_rel (d : dbstate) (t : table) (r : relation) : dbstate :=
  match t with
  | tbl_datasets =>
      {| db_datasets := r; db_images := db_images d;
         db_extractedsources := db_extractedsources d;
         db_runningcatalog := db_runningcatalog d |}
  | tbl_images =>
      {| db_datasets := db_datasets d; db_images := r;
         db_extractedsources := db_extractedsources d;
         db_runningcatalog := db_runningcatalog d |}
  | tbl_extractedsources =>
      {| db_datasets := db_datasets d; db_images := db_images d;
         db_extractedsources := r;
         db_runningcatalog := db_runningcatalog d |}
  end.

(** The name of the identity column of each relation. *)
Definition id_column (t : table) : string :=
  match t with
  | tbl_datasets => "dsid"
  | tbl_images => "imageid"
  | tbl_extractedsources => "xtrsrcid"
  end.

(** The part of a dictionary that names data columns of the relation. *)
Definition known (r : relation) (data : gmap string value) : gmap string value :=
  filter (λ kv, kv.1 ∈ t_columns r) data.

(** The largest identity in use. *)
Definition max_key (rows : gmap Z (gmap string value)) : Z :=
  foldr Z.max 0 (fst <$> map_to_list rows).

Definition next_id (r : relation) : Z :=
  1 + Z.max (t_lastid r) (max_key (t_rows r)).

(** Modelled from the spec: the INSERT behind [create] (section 4.1: it
    inserts a new row and returns the newly assigned identity, which is
    never reused).  It is what the absent helpers
    [tkp.database.utils.insert_dataset] and [insert_image] do to the
    store, which are handed the values of named columns.  The new row
    holds the supplied values of the data columns, NULL in the others.
    Storage failures of the helpers are not modelled, so the handlers of
    [DataSet.id] and [Image.id] that log and re-raise [database.Error] are
    transparent. *)
Definition insert_row (d : dbstate) (t : table) (data : gmap string value)
  : Z * dbstate :=
  let r := rel d t in
  let i := next_id r in
  (i, set_rel d t
        {| t_columns := t_columns r;
           t_rows := <[i := known r data ∪ gset_to_gmap VNone (t_columns r)]> (t_rows r);
           t_lastid := i |}).

(** What [SELECT *] yields for the row of identity [i]: every data column
    and the identity column. *)
Definition select_row (d : dbstate) (t : table) (i : Z)
  : option (gmap string value) :=
  (λ row, <[id_column t := VInt i]> row) <$> t_rows (rel d t) !! i.

(** The statement that [DBObject.id] builds and executes,
    INSERT INTO TABLE (keys of _data) VALUES (values of _data).
    It names every key of [_data], so the engine must know them all.  The
    engine rejects the statement ([database.Error]) when it names no
    column at all, when a key is neither a data column of the relation nor
    its identity column, and when the identity it supplies is no integer
    or is in use.  The types of the other values are not modelled. *)
Definition identity_free (r : relation) (v : option value) : Prop :=
  match v with
  | None => True
  | Some (VInt k) => t_rows r !! k = None
  | Some _ => False
  end.

#[global] Instance identity_free_dec r v : Decision (identity_free r v).
Proof. destruct v as [[]|]; cbn; apply _. Defined.

Definition accepts (d : dbstate) (t : table) (data : gmap string value) : Prop :=
  data ≠ ∅
  ∧ dom data ⊆ {[ id_column t ]} ∪ t_columns (rel d t)
  ∧ identity_free (rel d t) (data !! id_column t).

#[global] Instance accepts_dec d t data : Decision (accepts d t data).
Proof. unfold accepts. apply _. Defined.

(** What the accepted statement does: the row is stored under the
    identity supplied, or else under the next one of the relation, and
    that identity is [cursor.lastrowid] (the RETURNING value when ENGINE
    is postgresql). *)
Definition execute_insert (d : dbstate) (t : table) (data : gmap string value)
  : option (Z * dbstate) :=
  if decide (accepts d t data) then
    let r := rel d t in
    let i := match data !! id_column t with
             | Some (VInt k) => k
             | _ => next_id r
             end in
    Some (i, set_rel d t
               {| t_columns := t_columns r;
                  t_rows := <[i := known r data ∪ gset_to_gmap VNone (t_columns r)]>
                              (t_rows r);
                  t_lastid := Z.max (t_lastid r) i |})
  else None.

(** Modelled from the spec: [tkp.database.utils.columns_from_table], absent
    from the sources, called with [keywords=None] and the one WHERE clause
    the module ever builds, [{ID: _id}] (section 4.1, [load]: it reads all
    columns for that identity).  The result is the list of matching rows as
    dictionaries: one row, or none when the identity is unknown or is
    [None]. *)
Definition columns_from_table (d : dbstate) (t : table) (where_id : option Z)
  : list (gmap string value) :=
  match where_id with
  | None => []
  | Some i =>
      match select_row d t i with
      | Some row => [row]
      | None => []
      end
  end.

(** Modelled from the spec: [tkp.database.utils.set_columns_for_table],
    absent from the sources, with the WHERE clause [{ID: _id}] (section
    4.1, [apply]: it writes the given attributes to the row, ignoring
    attributes not matching a known column, which fails silently). *)
Definition set_columns_for_table (d : dbstate) (t : table)
    (data : gmap string value) (where_id : option Z) : dbstate :=
  match where_id with
  | None => d
  | Some i =>
      let r := rel d t in
      set_rel d t
        {| t_columns := t_columns r;
           t_rows := alter (λ row, known r data ∪ row) i (t_rows r);
           t_lastid := t_lastid r |}
  end.

(** Modelled from the spec: [tkp.database.utils.insert_dataset], absent
    from the sources (section 4.2: a new Dataset from its name). *)
Definition insert_dataset (d : dbstate) (dsinname : value) : Z * dbstate :=
  insert_row d tbl_datasets {[ "dsinname" := dsinname ]}.

(** Modelled from the spec: [tkp.database.utils.insert_image], absent from
    the sources (section 4.3: it inserts a row with [ds_id] set from the
    dataset's identity).  The five arguments are all it can store. *)
Definition insert_image (d : dbstate)
    (dsid freq_eff freq_bw taustart_ts url : value) : Z * dbstate :=
  insert_row d tbl_images
    (<["ds_id" := dsid]> (<["freq_eff" := freq_eff]> (<["freq_bw" := freq_bw]>
      (<["taustart_ts" := taustart_ts]> {[ "url" := url ]})))).

Definition Qgtb (a b : Q) : bool := negb (Qle_bool a b).

Definition exceeds (x : option Q) (lim : Q) : bool :=
  match x with
  | Some q => Qgtb q lim
  | None => false
  end.

(** Modelled from the spec: [tkp.database.utils.detect_variable_sources],
    absent from the sources (section 4.2: the running-catalogue entries of
    the dataset whose variability indices exceed both thresholds; a derived
    query).  An undefined index exceeds nothing. *)
Definition detect_variable_sources (d : dbstate) (dsid : option Z)
    (V_lim eta_lim : Q) : list runcat :=
  match dsid with
  | None => []
  | Some i =>
      filter (λ e, rc_dataset e = i ∧ exceeds (rc_V e) V_lim = true
                   ∧ exceeds (rc_eta e) eta_lim = true)
             (db_runningcatalog d)
  end.

(** ** Python objects *)

Definition loc : Type := nat.

Inductive class : Type := DataSet | Image | ExtractedSource.

#[global] Instance class_eq_dec : EqDecision class.
Proof. solve_decision. Defined.

(** The class attributes [TABLE], [ID] and [REQUIRED]. *)
Definition TABLE (c : class) : table :=
  match c with
  | DataSet => tbl_datasets
  | Image => tbl_images
  | ExtractedSource => tbl_extractedsources
  end.

Definition ID (c : class) : string :=
  match c with
  | DataSet => "dsid"
  | Image => "imageid"
  | ExtractedSource => "xtrsrcid"
  end.

Definition REQUIRED (c : class) : list string :=
  match c with
  | DataSet => ["dsinname"]
  | Image => ["ds_id"; "tau_time"; "freq_eff"; "freq_bw"; "taustart_ts"]
  | ExtractedSource =>
      ["image_id"; "zone"; "ra"; "decl"; "ra_err"; "decl_err";
       "x"; "y"; "z"; "det_sigma"]
  end.

(** A [DataBase()] object.  The model has one database server, whose state
    is the [db] component of the world; every handle leads to it. *)
Inductive DataBase : Type := Connection.

(** An instance of one of the three classes.  [_id], [_data] and [database]
    are the attributes set by [DBObject.__init__]; [dataset] and [sources]
    are those of an Image, [images] that of a DataSet, [image] that of an
    ExtractedSource. *)
Record object : Type := {
  class_of : class;
  _id : option Z;
  _data : gmap string value;
  database : option DataBase;
  dataset : option loc;
  image : option loc;
  images : gset loc;
  sources : gset loc
}.

Definition blank (c : class) : object :=
  {| class_of := c; _id := None; _data := ∅; database := None;
     dataset := None; image := None; images := ∅; sources := ∅ |}.

Definition set_id (v : option Z) (o : object) : object :=
  {| class_of := class_of o; _id := v; _data := _data o;
     database := database o; dataset := dataset o; image := image o;
     images := images o; sources := sources o |}.

Definition set_data (v : gmap string value) (o : object) : object :=
  {| class_of := class_of o; _id := _id o; _data := v;
     database := database o; dataset := dataset o; image := image o;
     images := images o; sources := sources o |}.

Definition set_database (v : option DataBase) (o : object) : object :=
  {| class_of := class_of o; _id := _id o; _data := _data o;
     database := v; dataset := dataset o; image := image o;
     images := images o; sources := sources o |}.

Definition set_dataset (v : option loc) (o : object) : object :=
  {| class_of := class_of o; _id := _id o; _data := _data o;
     database := database o; dataset := v; image := image o;
     images := images o; sources := sources o |}.

Definition set_image (v : option loc) (o : object) : object :=
  {| class_of := class_of o; _id := _id o; _data := _data o;
     database := database o; dataset := dataset o; image := v;
     images := images o; sources := sources o |}.

Definition set_images (v : gset loc) (o : object) : object :=
  {| class_of := class_of o; _id := _id o; _data := _data o;
     database := database o; dataset := dataset o; image := image o;
     images := v; sources := sources o |}.

Definition set_sources (v : gset loc) (o : object) : object :=
  {| class_of := class_of o; _id := _id o; _data := _data o;
     database := database o; dataset := dataset o; image := image o;
     images := images o; sources := v |}.

(** ** The world and the monad of methods *)

Record world : Type := {
  db : dbstate;
  heap : gmap loc object;
  next_loc : loc
}.

Inductive exn : Type :=
  | AttributeError (msg : string)
  | KeyError (key : string)
  | ValueError (msg : string)
  | IndexError
  | DatabaseError     (* [database.Error], raised by the engine *)
  | ReferenceError.   (* a handle that designates no object; Python keeps
                         every referenced object alive, so this is never
                         raised on a heap built by the constructors *)

Inductive result (A : Type) : Type :=
  | Ok (a : A)
  | Raise (e : exn).
Arguments Ok {A} a.
Arguments Raise {A} e.

Definition M (A : Type) : Type := world → result A * world.

Definition ret {A} (a : A) : M A := λ w, (Ok a, w).

Definition raise {A} (e : exn) : M A := λ w, (Raise e, w).

(** Sequencing: an exception stops the computation and keeps the state
    reached so far. *)
Definition bind {A B} (c : M A) (k : A → M B) : M B :=
  λ w, match c w with
       | (Ok a, w1) => k a w1
       | (Raise e, w1) => (Raise e, w1)
       end.

Notation "'let*' x ':=' c 'in' k" := (bind c (λ x, k))
  (at level 10, x name, c at level 200, k at level 200).
Notation "c ';;;' k" := (bind c (λ _, k))
  (at level 100, k at level 200, right associativity).

Definition get_db : M dbstate := λ w, (Ok (db w), w).

Definition put_db (d : dbstate) : M unit :=
  λ w, (Ok tt, {| db := d; heap := heap w; next_loc := next_loc w |}).

(** Reading the attributes of the object behind a handle. *)
Definition get (l : loc) : M object :=
  λ w, match heap w !! l with
       | Some o => (Ok o, w)
       | None => (Raise ReferenceError, w)
       end.

(** Assigning to attributes of the object behind a handle. *)
Definition modify (l : loc) (f : object → object) : M unit :=
  λ w, match heap w !! l with
       | Some o =>
           (Ok tt, {| db := db w; heap := <[l := f o]> (heap w);
                      next_loc := next_loc w |})
       | None => (Raise ReferenceError, w)
       end.

(** [object.__new__]: a new instance, with no attribute set yet. *)
Definition alloc (c : class) : M loc :=
  λ w, (Ok (next_loc w),
        {| db := db w; heap := <[next_loc w := blank c]> (heap w);
           next_loc := S (next_loc w) |}).

(** [o.database.connection] and [o.database.cursor]: on [None] Python raises
    the AttributeError of the missing attribute. *)
Definition connection (o : object) : M DataBase :=
  match database o with
  | Some c => ret c
  | None => raise (AttributeError "'NoneType' object has no attribute 'connection'")
  end.

Definition cursor (o : object) : M DataBase :=
  match database o with
  | Some c => ret c
  | None => raise (AttributeError "'NoneType' object has no attribute 'cursor'")
  end.

(** [d[key]] on a dictionary. *)
Definition getitem (d : gmap string value) (key : string) : M value :=
  match d !! key with
  | Some v => ret v
  | None => raise (KeyError key)
  end.

(** [d.setdefault(key, v)]. *)
Definition setdefault (key : string) (v : value) (d : gmap string value)
  : gmap string value :=
  match d !! key with
  | Some _ => d
  | None => <[key := v]> d
  end.

(** Handles are typed: the one stored in [dataset] designates a DataSet and
    the one stored in [image] an Image.  Reading a class-specific attribute
    of an object of another class lands in [__getattr__] and raises. *)
Definition expect (c : class) (attr : string) (l : loc) : M object :=
  let* o := get l in
  if decide (class_of o = c) then ret o
  else raise (AttributeError ("attribute '" ++ attr ++ "' not found")).

(** ** class DBObject *)

Module DBObject.

(** [__init__(self, data=None, database=None, id=None)] *)
Definition __init__ (self : loc) (data : option (gmap string value))
    (database_ : option DataBase) (id_ : option Z) : M unit :=
  modify self (set_id id_) ;;;
  modify self (set_data (match data with None => ∅ | Some d => d end)) ;;;
  modify self (set_database database_).

(** [__getattr__(self, name)]: reached when [name] is no ordinary
    attribute of the object. *)
Definition __getattr__ (self : loc) (name : string) : M value :=
  let* o := get self in
  match _data o !! name with
  | Some v => ret v
  | None => raise (AttributeError ("attribute '" ++ name ++ "' not found"))
  end.

(** The expression [obj.id], given the getter of the property [id] of
    the class of [obj]: the value that the getter returns; when the
    getter raises an AttributeError, attribute lookup falls back on
    [__getattr__], as for any name that is not found. *)
Definition getattr_id (getter : loc → M Z) (obj : loc) : M value :=
  λ w, match getter obj w with
       | (Ok i, w1) => (Ok (VInt i), w1)
       | (Raise (AttributeError _), w1) => __getattr__ obj "id" w1
       | (Raise e, w1) => (Raise e, w1)
       end.

(** The property [id] of the base class.  The statement is
    INSERT INTO TABLE (keys of _data) VALUES (values of _data); the new
    identity is [cursor.lastrowid], or the RETURNING value when ENGINE is
    postgresql.  When the engine rejects the statement, the handler logs
    and re-raises [database.Error].  The commit of a connection without
    autocommit does not show in the model. *)
Definition id (self : loc) : M Z :=
  let* o := get self in
  match _id o with
  | Some i => ret i
  | None =>
      cursor o ;;;
      let* d := get_db in
      match execute_insert d (TABLE (class_of o)) (_data o) with
      | Some (i, d') =>
          put_db d' ;;;
          modify self (set_id (Some i)) ;;;
          ret i
      | None => raise DatabaseError
      end
  end.

(** [_sync_with_database(self)] *)
Definition _sync_with_database (self : loc) : M unit :=
  let* o := get self in
  connection o ;;;
  let* d := get_db in
  match columns_from_table d (TABLE (class_of o)) (_id o) with
  | row :: _ => modify self (set_data row)
  | [] => raise IndexError
  end.

(** [_set_data(self, **kwargs)] *)
Definition _set_data (self : loc) (kwargs : gmap string value) : M unit :=
  if decide (size kwargs = 0%nat) then ret tt
  else
    let* o := get self in
    connection o ;;;
    let* d := get_db in
    put_db (set_columns_for_table d (TABLE (class_of o)) kwargs (_id o)) ;;;
    modify self (λ o, set_data (kwargs ∪ _data o) o).

(** [update(self, **kwargs)] *)
Definition update (self : loc) (kwargs : gmap string value) : M unit :=
  _sync_with_database self ;;;
  _set_data self kwargs.

(** The loop of [_init_data] over [REQUIRED]. *)
Fixpoint check_required (keys : list string) (data : gmap string value)
  : M unit :=
  match keys with
  | [] => ret tt
  | key :: keys' =>
      match data !! key with
      | None => raise (AttributeError ("missing required data key: " ++ key))
      | Some _ => check_required keys' data
      end
  end.

(** [_init_data(self)].  [self.id] is the property of the class of
    [self], whose getter the constructor that makes the call supplies. *)
Definition _init_data (self_id : loc → M Z) (self : loc) : M unit :=
  let* o := get self in
  match _id o with
  | Some _ => update self ∅
  | None =>
      check_required (REQUIRED (class_of o)) (_data o) ;;;
      getattr_id self_id self ;;;
      ret tt
  end.

End DBObject.

(** ** class DataSet(DBObject) *)

Module DataSet.

(** The property [id].  The handler [except self.database.Error] logs
    and re-raises; failures of the absent helper are not modelled, so it
    does not show.  (Without a database the handler's own lookup of
    [Error] raises an AttributeError in place of the one below, with
    another message.) *)
Definition id (self : loc) : M Z :=
  let* o := get self in
  match _id o with
  | Some i => ret i
  | None =>
      connection o ;;;
      let* dsinname := getitem (_data o) "dsinname" in
      let* d := get_db in
      let '(i, d') := insert_dataset d dsinname in
      put_db d' ;;;
      modify self (set_id (Some i)) ;;;
      ret i
  end.

(** [__init__(self, data=None, database=None, id=None)] *)
Definition __init__ (self : loc) (data : option (gmap string value))
    (database_ : option DataBase) (id_ : option Z) : M unit :=
  DBObject.__init__ self data database_ id_ ;;;
  modify self (set_images ∅) ;;;
  let* o := get self in
  match database o with
  | None => raise (ValueError "can't create DataSet object without a DataBase() object")
  | Some _ => DBObject._init_data id self
  end.

(** The expression [DataSet(data=..., database=..., id=...)]. *)
Definition new (data : option (gmap string value))
    (database_ : option DataBase) (id_ : option Z) : M loc :=
  let* self := alloc DataSet in
  __init__ self data database_ id_ ;;;
  ret self.

(** [detect_variables(self, V_lim=0.2, eta_lim=3.)] *)
Definition detect_variables (self : loc) (V_lim eta_lim : option Q)
  : M (list runcat) :=
  let V_lim := match V_lim with Some q => q | None => 2 # 10 end in
  let eta_lim := match eta_lim with Some q => q | None => 3 # 1 end in
  let* o := get self in
  connection o ;;;
  let* d := get_db in
  ret (detect_variable_sources d (_id o) V_lim eta_lim).

End DataSet.

(** ** class Image(DBObject) *)

Module Image.

(** The property [id].  The arguments of [insert_image] are evaluated
    from left to right: the connection, [self.dataset.id], then the four
    items of [_data].  The handler is as in [DataSet.id]. *)
Definition id (self : loc) : M Z :=
  let* o := get self in
  match _id o with
  | Some i => ret i
  | None =>
      connection o ;;;
      let* dsid :=
        match dataset o with
        | None => raise (AttributeError "'NoneType' object has no attribute 'id'")
        | Some ds =>
            expect DataSet "images" ds ;;;
            DBObject.getattr_id DataSet.id ds
        end in
      let* o := get self in
      let* freq_eff := getitem (_data o) "freq_eff" in
      let* freq_bw := getitem (_data o) "freq_bw" in
      let* taustart_ts := getitem (_data o) "taustart_ts" in
      let* url := getitem (_data o) "url" in
      let* d := get_db in
      let '(i, d') := insert_image d dsid freq_eff freq_bw taustart_ts url in
      put_db d' ;;;
      modify self (set_id (Some i)) ;;;
      ret i
  end.

(** The block of [__init__] that deals with a supplied DataSet. *)
Definition adopt_dataset (self ds : loc) : M unit :=
  let* dso := get ds in
  let* o := get self in
  match database dso, database o with
  | Some c, None => modify self (set_database (Some c))
  | _, _ => ret tt
  end ;;;
  expect DataSet "images" ds ;;;
  modify ds (λ dso, set_images ({[ self ]} ∪ images dso) dso) ;;;
  let* dsid := DBObject.getattr_id DataSet.id ds in
  modify self (λ o, set_data (setdefault "ds_id" dsid (_data o)) o).

(** [__init__(self, data=None, dataset=None, database=None, id=None)] *)
Definition __init__ (self : loc) (data : option (gmap string value))
    (dataset_ : option loc) (database_ : option DataBase) (id_ : option Z)
  : M unit :=
  DBObject.__init__ self data database_ id_ ;;;
  modify self (set_dataset dataset_) ;;;
  match dataset_ with
  | Some ds => adopt_dataset self ds
  | None => ret tt
  end ;;;
  modify self (set_sources ∅) ;;;
  let* o := get self in
  match database o with
  | None => raise (ValueError "can't create Image object without a DataBase() object")
  | Some _ => DBObject._init_data id self
  end.

(** The expression [Image(data=..., dataset=..., database=..., id=...)]. *)
Definition new (data : option (gmap string value)) (dataset_ : option loc)
    (database_ : option DataBase) (id_ : option Z) : M loc :=
  let* self := alloc Image in
  __init__ self data dataset_ database_ id_ ;;;
  ret self.

End Image.

(** ** class ExtractedSource(DBObject) *)

Module ExtractedSource.

(** The block of [__init__] that deals with a supplied Image. *)
Definition adopt_image (self im : loc) : M unit :=
  let* imo := expect Image "dataset" im in
  let* dso :=
    match dataset imo with
    | None => raise (AttributeError "'NoneType' object has no attribute 'database'")
    | Some ds => get ds
    end in
  let* o := get self in
  match database dso, database o with
  | Some c, None => modify self (set_database (Some c))
  | _, _ => ret tt
  end ;;;
  modify im (λ imo, set_sources ({[ self ]} ∪ sources imo) imo) ;;;
  let* imageid := DBObject.getattr_id Image.id im in
  modify self (λ o, set_data (setdefault "image_id" imageid (_data o)) o).

(** [__init__(self, data=None, image=None, database=None, id=None)] *)
Definition __init__ (self : loc) (data : option (gmap string value))
    (image_ : option loc) (database_ : option DataBase) (id_ : option Z)
  : M unit :=
  DBObject.__init__ self data database_ id_ ;;;
  modify self (set_image image_) ;;;
  match image_ with
  | Some im => adopt_image self im
  | None => ret tt
  end ;;;
  let* o := get self in
  match database o with
  | None => raise (ValueError "can't create ExtractedSource object without a DataBase() object")
  | Some _ => DBObject._init_data DBObject.id self
  end.

(** The expression
    [ExtractedSource(data=..., image=..., database=..., id=...)]. *)
Definition new (data : option (gmap string value)) (image_ : option loc)
    (database_ : option DataBase) (id_ : option Z) : M loc :=
  let* self := alloc ExtractedSource in
  __init__ self data image_ database_ id_ ;;;
  ret self.

End ExtractedSource.

(** ** Dispatch on the class of an object *)

(** [self.id] for an object of any of the three classes. *)
Definition prop_id (self : loc) : M Z :=
  let* o := get self in
  match class_of o with
  | DataSet => DataSet.id self
  | Image => Image.id self
  | ExtractedSource => DBObject.id self
  end.

(** [cls(data=data, <owner>=owner, database=database, id=id)]: the
    constructor of class [c]; [owner] is the [dataset] of an Image and the
    [image] of an ExtractedSource, and a DataSet has none. *)
Definition construct (c : class) (data : option (gmap string value))
    (owner : option loc) (database_ : option DataBase) (id_ : option Z)
  : M loc :=
  match c with
  | DataSet => DataSet.new data database_ id_
  | Image => Image.new data owner database_ id_
  | ExtractedSource => ExtractedSource.new data owner database_ id_
  end.

(** * Vocabulary of the statements *)

(** A threshold of [detect_variables]: the value given, or the default. *)
Definition threshold (given : option Q) (default_ : Q) : Q :=
  match given with Some q => q | None => default_ end.

(** [d'] is [d] with exactly one more row, of identity [i], in relation [t]. *)
Definition one_row_inserted (d d' : dbstate) (t : table) (i : Z) : Prop :=
  t_rows (rel d t) !! i = None
  ∧ (∃ row, t_rows (rel d' t) = <[i := row]> (t_rows (rel d t)))
  ∧ t_columns (rel d' t) = t_columns (rel d t)
  ∧ (∀ t', t' ≠ t → rel d' t' = rel d t')
  ∧ db_runningcatalog d' = db_runningcatalog d.

(** What the first evaluation of the getter of [id] needs in order to
    return: a database, and the items of [_data] that the insertion of the
    class reads; for an Image also a dataset that has its identity; for an
    ExtractedSource a snapshot whose INSERT the engine accepts. *)
Definition can_insert (w : world) (o : object) : Prop :=
  is_Some (database o)
  ∧ match class_of o with
    | DataSet => is_Some (_data o !! "dsinname")
    | Image =>
        (∃ ds dso, dataset o = Some ds ∧ heap w !! ds = Some dso
                   ∧ class_of dso = DataSet ∧ is_Some (_id dso))
        ∧ is_Some (_data o !! "freq_eff") ∧ is_Some (_data o !! "freq_bw")
        ∧ is_Some (_data o !! "taustart_ts") ∧ is_Some (_data o !! "url")
    | ExtractedSource => accepts (db w) tbl_extractedsources (_data o)
    end.

(** No [DataBase()] is to be had from the owner handed to the constructor:
    the owner itself holds none, and for an ExtractedSource the dataset of
    the owning image holds none either. *)
Definition no_database_via (w : world) (owner : option loc) : Prop :=
  match owner with
  | None => True
  | Some p =>
      ∀ po, heap w !! p = Some po →
        database po = None
        ∧ ∀ ds dso, dataset po = Some ds → heap w !! ds = Some dso →
                    database dso = None
  end.

(** The names whose supplied values the insertion of each class passes to
    the store. *)
Definition inserted_from_data (c : class) (k : string) : Prop :=
  match c with
  | DataSet => k = "dsinname"
  | Image => k ∈ ["freq_eff"; "freq_bw"; "taustart_ts"; "url"]
  | ExtractedSource => True
  end.

(** The dictionary that [_init_data] checks: the one supplied, after the
    constructor has filled in [ds_id] from a dataset, or [image_id] from an
    image, that has its identity. *)
Definition filled_in (w : world) (c : class) (owner : option loc)
    (data : gmap string value) : gmap string value :=
  match c, owner with
  | Image, Some p =>
      match heap w !! p ≫= _id with
      | Some j => setdefault "ds_id" (VInt j) data
      | None => data
      end
  | ExtractedSource, Some p =>
      match heap w !! p ≫= _id with
      | Some j => setdefault "image_id" (VInt j) data
      | None => data
      end
  | _, _ => data
  end.

(** The owner handed to the constructor is an object of the right class
    that has its identity (as every object has whose constructor returned),
    and is not the object under construction. *)
Definition owner_ready (w : world) (c : class) (owner : option loc) : Prop :=
  match c, owner with
  | Image, Some p =>
      p ≠ next_loc w
      ∧ ∃ po, heap w !! p = Some po ∧ class_of po = DataSet ∧ is_Some (_id po)
  | ExtractedSource, Some p =>
      p ≠ next_loc w
      ∧ ∃ po ds dso, heap w !! p = Some po ∧ class_of po = Image
                     ∧ is_Some (_id po)
                     ∧ dataset po = Some ds ∧ heap w !! ds = Some dso
                     ∧ ds ≠ next_loc w
  | _, _ => True
  end.

(** What the insertion needs besides the required names: for an Image the
    dataset given to the constructor and the [url]; for an ExtractedSource
    a filled-in dictionary whose INSERT the engine accepts. *)
Definition insert_ready (w : world) (c : class) (owner : option loc)
    (data : gmap string value) : Prop :=
  match c with
  | DataSet => True
  | Image => is_Some owner ∧ is_Some (data !! "url")
  | ExtractedSource =>
      accepts (db w) tbl_extractedsources (filled_in w c owner data)
  end.

(** The object whose database a constructor adopts when it is given none:
    the dataset for an Image, the dataset of the image for an
    ExtractedSource. *)
Definition database_via (w : world) (c : class) (p : loc) : option DataBase :=
  match c with
  | DataSet => None
  | Image => heap w !! p ≫= database
  | ExtractedSource =>
      match heap w !! p ≫= dataset with
      | Some ds => heap w !! ds ≫= database
      | None => None
      end
  end.

(** A database is passed to the constructor, or the owner leads to one. *)
Definition database_reachable (w : world) (c : class) (owner : option loc)
    (database_ : option DataBase) : Prop :=
  is_Some database_
  ∨ ∃ p, owner = Some p ∧ is_Some (database_via w c p).

(** * A small database and the objects of the module's docstring *)

Definition schema (columns : list string) : relation :=
  {| t_columns := list_to_set columns; t_rows := ∅; t_lastid := 0 |}.

Definition empty_db : dbstate :=
  {| db_datasets := schema ["dsinname"];
     db_images :=
       schema ["ds_id"; "tau_time"; "freq_eff"; "freq_bw"; "taustart_ts"; "url"];
     db_extractedsources :=
       schema ["image_id"; "zone"; "ra"; "decl"; "ra_err"; "decl_err";
               "x"; "y"; "z"; "det_sigma"];
     db_runningcatalog := [] |}.

Definition empty_world : world :=
  {| db := empty_db; heap := ∅; next_loc := 0%nat |}.

Definition dataset_data : gmap string value :=
  {[ "dsinname" := VStr "a dataset" ]}.

Definition image_data : gmap string value :=
  <["freq_eff" := VStr "80e6"]> (<["freq_bw" := VNum (1000000 # 1)]>
    (<["taustart_ts" := VStr "2011-05-01 00:00:00"]>
      (<["tau_time" := VNum (1800 # 1)]> {[ "url" := VStr "/" ]}))).

(** [dataset = DataSet(data={'dsinname': 'a dataset'}, database=database)]:
    the object at location 0, with identity 1. *)
Definition with_dataset : world :=
  snd (DataSet.new (Some dataset_data) (Some Connection) None empty_world).

(** [image1 = Image(data={...}, dataset=dataset)]: the object at location
    1, with identity 1. *)
Definition with_image : world :=
  snd (Image.new (Some image_data) (Some 0%nat) None None with_dataset).

Definition image_object : object :=
  default (blank Image) (heap with_image !! 1%nat).

Definition image_row : gmap string value :=
  default ∅ (select_row (db with_image) tbl_images 1).

Definition dataset_object : object :=
  default (blank DataSet) (heap with_dataset !! 0%nat).

(** An image whose data name a dataset other than the one it is given. *)
Definition foreign_image_data : gmap string value :=
  <["ds_id" := VInt 999]> image_data.

Definition with_foreign_image : world :=
  snd (Image.new (Some foreign_image_data) (Some 0%nat) None None with_dataset).

(** An image whose construction fails for want of required data, after it
    has joined the images of the dataset. *)
Definition with_failed_image : world :=
  snd (Image.new (Some ∅) (Some 0%nat) None None with_dataset).

(** The image data of the docstring without the location of the file. *)
Definition image_data_no_url : gmap string value := delete "url" image_data.

(** Two running-catalogue entries of dataset 1. *)
Definition variable_entry : runcat :=
  {| rc_id := 1; rc_dataset := 1; rc_V := Some (5 # 10); rc_eta := Some (10 # 1) |}.

Definition steady_entry : runcat :=
  {| rc_id := 2; rc_dataset := 1; rc_V := Some (1 # 10); rc_eta := Some (1 # 1) |}.

Definition with_catalog : world :=
  {| db := {| db_datasets := db_datasets (db with_dataset);
              db_images := db_images (db with_dataset);
              db_extractedsources := db_extractedsources (db with_dataset);
              db_runningcatalog := [variable_entry; steady_entry] |};
     heap := heap with_dataset;
     next_loc := next_loc with_dataset |}.

(** A dataset object that has lost its database (the attribute was set to
    [None] after construction), alone in the heap. *)
Definition orphan_dataset : object :=
  set_id (Some 1) (set_data dataset_data (blank DataSet)).

Definition with_orphan : world :=
  {| db := db with_dataset; heap := {[ 0%nat := orphan_dataset ]};
     next_loc := 1%nat |}.

(** * The other methods of the module *)

(** ** Reloading the members of a dataset or an image *)

(** What [cursor.fetchall()] yields after the statement
    SELECT <identity column> FROM <relation> WHERE <column> = %s
    run on [(self._id,)]: the identities of the rows that hold that
    identity in the column, in some order; none for [None], which equals
    nothing in SQL.  As for the other statements, failures of the engine
    are not modelled. *)
Definition select_ids_where (d : dbstate) (t : table) (column : string)
    (v : option Z) : list Z :=
  match v with
  | None => []
  | Some i =>
      (map_to_list
         (filter (λ kr, kr.2 !! column = Some (VInt i)) (t_rows (rel d t)))).*1
  end.

(** The loop of [update_images] and of [update_sources]: one new object of
    class [c] per result, loaded by its identity with the database of
    [self], added to the set. *)
Fixpoint load_members (c : class) (self : loc) (results : list Z)
    (members : gset loc) : M (gset loc) :=
  match results with
  | [] => ret members
  | i :: results' =>
      let* o := get self in
      let* m := construct c None None (database o) (Some i) in
      load_members c self results' ({[ m ]} ∪ members)
  end.

(** [DataSet.update_images(self)] *)
Definition update_images (self : loc) : M unit :=
  let* o := get self in
  cursor o ;;;
  let* d := get_db in
  let* members :=
    load_members Image self (select_ids_where d tbl_images "ds_id" (_id o)) ∅ in
  modify self (set_images members).

(** [Image.update_sources(self)] *)
Definition update_sources (self : loc) : M unit :=
  let* o := get self in
  cursor o ;;;
  let* d := get_db in
  let* members :=
    load_members ExtractedSource self
      (select_ids_where d tbl_extractedsources "image_id" (_id o)) ∅ in
  modify self (set_sources members).

(** ** Matching against the monitoring list *)

Section MonitoringList.

(** [dbu.match_runningcatalog_monitoringlist], absent from the sources:
    what it does to the store, given the dataset identity, the image
    identity and the two radii. *)
Variable match_runningcatalog_monitoringlist :
  dbstate → value → value → Q → Q → dbstate.

(** [Image.match_monitoringlist(self, update_image_column, assoc_r,
    mindistance)], the arguments given. *)
Definition match_monitoringlist (self : loc) (update_image_column : bool)
    (assoc_r mindistance : Q) : M unit :=
  let* o := get self in
  let image_id :=
    if update_image_column
    then match _id o with Some i => VInt i | None => VNone end
    else VInt (-1) in
  connection o ;;;
  let* dsid :=
    match dataset o with
    | None => raise (AttributeError "'NoneType' object has no attribute 'id'")
    | Some ds =>
        expect DataSet "images" ds ;;;
        DBObject.getattr_id DataSet.id ds
    end in
  let* d := get_db in
  put_db (match_runningcatalog_monitoringlist d dsid image_id assoc_r mindistance).

End MonitoringList.

(** ** Printing a dataset *)

Section Str.

(** Python's [str] on a value of a data dictionary. *)
Variable str : value → string.

Definition double_quote : string := String "034"%char EmptyString.

(** [DataSet.__str__(self)]: the tuple [(self.name, str(self._dsid),
    len(self.images))] is built from left to right and then formatted.
    Neither [name] nor [_dsid] is an attribute that the class sets, so
    both are looked for by [__getattr__]. *)
Definition __str__ (self : loc) : M string :=
  let* name := DBObject.__getattr__ self "name" in
  let* dsid := DBObject.__getattr__ self "_dsid" in
  let* o := expect DataSet "images" self in
  ret ("DataSet: " ++ double_quote ++ str name ++ double_quote
       ++ ". Database ID: " ++ str dsid ++ " "
       ++ pretty (size (images o)) ++ " images.").

End Str.

(** * Vocabulary of the further statements *)

(** The set of the owner that the new object joins. *)
Definition members (c : class) (owner : object) : gset loc :=
  match c with
  | DataSet => ∅
  | Image => images owner
  | ExtractedSource => sources owner
  end.

(** * Further objects *)

Definition source_data : gmap string value :=
  list_to_map
    [("zone", VInt 12); ("ra", VNum (1234 # 10)); ("decl", VNum (125 # 10));
     ("ra_err", VNum (1 # 100)); ("decl_err", VNum (1 # 100));
     ("x", VNum (5 # 10)); ("y", VNum (5 # 10)); ("z", VNum (7 # 10));
     ("det_sigma", VNum (8 # 1))].

(** [ExtractedSource(data={...}, image=image1)]: the object at location 2,
    with identity 1. *)
Definition with_source : world :=
  snd (ExtractedSource.new (Some source_data) (Some 1%nat) None None with_image).

(** [Image(id=1, database=database)]: a second handle on the row of
    [image1], at location 2. *)
Definition with_loaded_image : world :=
  snd (Image.new None None (Some Connection) (Some 1) with_image).



(** The objects of [with_image], [with_source], [with_loaded_image] and
    [with_failed_image]. *)
Definition dataset_with_image : object :=
  default (blank DataSet) (heap with_image !! 0%nat).

Definition image_with_source : object :=
  default (blank Image) (heap with_source !! 1%nat).

Definition loaded_image_object : object :=
  default (blank Image) (heap with_loaded_image !! 2%nat).

Definition failed_image_object : object :=
  default (blank Image) (heap with_failed_image !! 1%nat).

(** [image1.update(tau_time=2500, bogus=1)] *)
Definition update_kwargs : gmap string value :=
  <["tau_time" := VNum (2500 # 1)]> {[ "bogus" := VInt 1 ]}.

(** A stand-in for [match_runningcatalog_monitoringlist] that leaves the
    store as it is, and one for [str]. *)
Definition no_match (d : dbstate) (dsid image_id : value) (assoc_r mindistance : Q)
  : dbstate := d.

Definition str_of_value (v : value) : string :=
  match v with
  | VStr s => s
  | _ => "?"
  end.

(** Image data that name their dataset and have an item [id]. *)
Definition image_data_with_id : gmap string value :=
  <["id" := VInt 7]> (<["ds_id" := VInt 1]> image_data).

(** [ExtractedSource(data={...}, image=image1)] at the point where
    [__init__] calls [_init_data]: the object at location 2 has its
    database and its [image_id], and no identity yet. *)
Definition with_unsaved_source : world :=
  snd ((let* self := alloc ExtractedSource in
        DBObject.__init__ self (Some source_data) None None ;;;
        modify self (set_image (Some 1%nat)) ;;;
        ExtractedSource.adopt_image self 1%nat) with_image).

Definition unsaved_source : object :=
  default (blank ExtractedSource) (heap with_unsaved_source !! 2%nat).

(** [Image(data={... 'ds_id': 1, 'id': 7}, database=database)], without a
    dataset object: the object at location 1. *)
Definition with_detached_image : world :=
  snd (Image.new (Some image_data_with_id) None (Some Connection) None
         with_dataset).
(** * Properties *)

(** ** Running the primitives *)

Arguments columns_from_table : simpl never.
Arguments set_columns_for_table : simpl never.
Arguments insert_row : simpl never.
Arguments execute_insert : simpl never.
Arguments insert_dataset : simpl never.
Arguments insert_image : simpl never.
Arguments select_row : simpl never.
Arguments detect_variable_sources : simpl never.
Arguments DBObject.__init__ : simpl never.
Arguments DBObject.__getattr__ : simpl never.
Arguments DBObject.getattr_id : simpl never.
Arguments DBObject.id : simpl never.
Arguments DBObject._sync_with_database : simpl never.
Arguments DBObject._set_data : simpl never.
Arguments DBObject.update : simpl never.
Arguments DBObject._init_data : simpl never.
Arguments DataSet.id : simpl never.
Arguments DataSet.__init__ : simpl never.
Arguments Image.id : simpl never.
Arguments Image.adopt_dataset : simpl never.
Arguments Image.__init__ : simpl never.
Arguments ExtractedSource.adopt_image : simpl never.
Arguments ExtractedSource.__init__ : simpl never.
Arguments expect : simpl never.
Arguments get : simpl never.
Arguments modify : simpl never.

Lemma get_run w l o : heap w !! l = Some o → get l w = (Ok o, w).
Proof. intros H. unfold get. by rewrite H. Qed.

Lemma modify_run w l o f :
  heap w !! l = Some o →
  modify l f w
  = (Ok tt, {| db := db w; heap := <[l := f o]> (heap w); next_loc := next_loc w |}).
Proof. intros H. unfold modify. by rewrite H. Qed.

(** One step of symbolic execution of a method on a known heap. *)
Ltac mstep :=
  unfold bind, ret, raise, get_db, put_db, connection, cursor, getitem; cbn;
  repeat match goal with
    | H : heap ?w !! ?l = Some _ |- context [get ?l ?w] => rewrite (get_run w l _ H)
    | H : heap ?w !! ?l = Some _ |- context [modify ?l ?f ?w] => rewrite (modify_run w l _ f H)
    | H : _id ?o = _ |- context [_id ?o] => rewrite H
    | H : database ?o = _ |- context [database ?o] => rewrite H
    | H : dataset ?o = _ |- context [dataset ?o] => rewrite H
    | H : image ?o = _ |- context [image ?o] => rewrite H
    | H : class_of ?o = _ |- context [class_of ?o] => rewrite H
    | H : _data ?o !! ?k = _ |- context [_data ?o !! ?k] => rewrite H
    | |- context [decide (?c = ?c)] => rewrite (decide_True (P := c = c)) by done
    end; cbn.

(** ** Reading and writing rows *)

Lemma select_row_Some d t i row :
  select_row d t i = Some row ↔
  ∃ stored, t_rows (rel d t) !! i = Some stored ∧ row = <[id_column t := VInt i]> stored.
Proof.
  unfold select_row. destruct (t_rows (rel d t) !! i) as [stored|]; cbn.
  - split.
    + intros [= <-]. eauto.
    + intros (s & [= <-] & ->). done.
  - split; [done | intros (s & [=] & _)].
Qed.

Lemma rel_set_rel d t r : rel (set_rel d t r) t = r.
Proof. by destruct t. Qed.

Lemma rel_set_rel_ne d t t' r : t ≠ t' → rel (set_rel d t r) t' = rel d t'.
Proof. by destruct t, t'. Qed.

Lemma columns_from_table_Some d t i row :
  select_row d t i = Some row → columns_from_table d t (Some i) = [row].
Proof. intros H. unfold columns_from_table. by rewrite H. Qed.

(** ** [update] *)

Lemma sync_run w self o i c row :
  heap w !! self = Some o → _id o = Some i → database o = Some c →
  select_row (db w) (TABLE (class_of o)) i = Some row →
  DBObject._sync_with_database self w
  = (Ok tt, {| db := db w; heap := <[self := set_data row o]> (heap w);
               next_loc := next_loc w |}).
Proof.
  intros Hl Hi Hc Hrow. unfold DBObject._sync_with_database. mstep.
  rewrite (columns_from_table_Some _ _ _ _ Hrow). by mstep.
Qed.

(** Reading never writes: [_sync_with_database] leaves the store as it was,
    whether it returns or raises. *)
Lemma sync_db w self : db (snd (DBObject._sync_with_database self w)) = db w.
Proof.
  unfold DBObject._sync_with_database, bind, get, connection, get_db, modify, ret, raise.
  destruct (heap w !! self) as [o|]; cbn; [|done].
  destruct (database o); cbn; [|done].
  destruct (columns_from_table _ _ _); cbn; [done|].
  by destruct (heap w !! self).
Qed.

(** C2. For an entity that has its identity, [update()] without keyword
    arguments writes nothing: the store is left as it was in every case,
    and when the row of the entity is there the snapshot [_data] is
    replaced by the values of that row. *)
Theorem update_no_kwargs_read_only w self o i c row :
  heap w !! self = Some o → _id o = Some i → database o = Some c →
  select_row (db w) (TABLE (class_of o)) i = Some row →
  DBObject.update self ∅ w
  = (Ok tt, {| db := db w; heap := <[self := set_data row o]> (heap w);
               next_loc := next_loc w |})
  ∧ ∀ w0 l, db (snd (DBObject.update l ∅ w0)) = db w0.
Proof.
  intros Hl Hi Hc Hrow. split.
  - unfold DBObject.update, bind.
    rewrite (sync_run _ _ _ _ _ _ Hl Hi Hc Hrow). done.
  - intros w0 l. unfold DBObject.update, bind.
    pose proof (sync_db w0 l) as Hs.
    destruct (DBObject._sync_with_database l w0) as [[[]|e] w1]; cbn in *; done.
Qed.

Lemma set_data_run w self o c kwargs :
  heap w !! self = Some o → database o = Some c → size kwargs ≠ 0%nat →
  DBObject._set_data self kwargs w
  = (Ok tt,
     {| db := set_columns_for_table (db w) (TABLE (class_of o)) kwargs (_id o);
        heap := <[self := set_data (kwargs ∪ _data o) o]> (heap w);
        next_loc := next_loc w |}).
Proof.
  intros Hl Hc Hk. unfold DBObject._set_data.
  destruct (decide (size kwargs = 0%nat)) as [|_]; [done|].
  mstep. unfold modify. cbn. by rewrite Hl.
Qed.

Lemma known_empty r : known r ∅ = ∅.
Proof. unfold known. apply map_filter_empty. Qed.

Lemma relation_eta r :
  {| t_columns := t_columns r; t_rows := t_rows r; t_lastid := t_lastid r |} = r.
Proof. by destruct r. Qed.

Lemma dbstate_eta d t : set_rel d t (rel d t) = d.
Proof. by destruct d, t. Qed.

Lemma set_columns_empty d t where_id : set_columns_for_table d t ∅ where_id = d.
Proof.
  unfold set_columns_for_table. destruct where_id as [i|]; [|done].
  rewrite known_empty.
  replace (alter (λ row, ∅ ∪ row) i (t_rows (rel d t))) with (t_rows (rel d t)).
  - cbn. rewrite relation_eta. apply dbstate_eta.
  - apply map_eq. intros j. rewrite lookup_alter.
    case_decide; subst; [|done].
    destruct (t_rows (rel d t) !! j); cbn; [|done]. by rewrite (left_id_L ∅ (∪)).
Qed.

(** What a write stores: a supplied value under the name of a data column
    is read back from the row. *)
Lemma set_columns_lookup d t kwargs i row k v :
  select_row d t i = Some row →
  kwargs !! k = Some v → k ∈ t_columns (rel d t) → k ≠ id_column t →
  ∃ row', select_row (set_columns_for_table d t kwargs (Some i)) t i = Some row'
          ∧ row' !! k = Some v.
Proof.
  intros (stored & Hs & ->)%select_row_Some Hk Hcol Hne.
  unfold set_columns_for_table, select_row. rewrite rel_set_rel. cbn.
  rewrite lookup_alter. rewrite decide_True by done. rewrite Hs. cbn.
  eexists. split; [done|].
  rewrite lookup_insert_ne by done.
  apply lookup_union_Some_l. unfold known.
  apply map_lookup_filter_Some. done.
Qed.

(** A name that is no data column is not written: the row reads as before. *)
Lemma set_columns_unknown d t kwargs i :
  (∀ k, is_Some (kwargs !! k) → k ∉ t_columns (rel d t)) →
  set_columns_for_table d t kwargs (Some i) = d.
Proof.
  intros Hun. rewrite <- (set_columns_empty d t (Some i)) at 2.
  unfold set_columns_for_table. do 3 f_equal.
  replace (known (rel d t) kwargs) with (known (rel d t) ∅); [done|].
  rewrite known_empty. symmetry. apply map_eq. intros k.
  rewrite lookup_empty. unfold known. apply map_lookup_filter_None.
  right. intros v Hv Hin. cbn in Hin. apply (Hun k); eauto.
Qed.

(** [_set_data] with names that are no data columns: the call returns, the
    store is as it was, and the snapshot has taken every supplied item. *)
Lemma set_data_unknown w self o c i kwargs :
  heap w !! self = Some o → _id o = Some i → database o = Some c →
  size kwargs ≠ 0%nat →
  (∀ k, is_Some (kwargs !! k) → k ∉ t_columns (rel (db w) (TABLE (class_of o)))) →
  DBObject._set_data self kwargs w
  = (Ok tt,
     {| db := db w;
        heap := <[self := set_data (kwargs ∪ _data o) o]> (heap w);
        next_loc := next_loc w |}).
Proof.
  intros Hl Hi Hc Hk Hun. rewrite (set_data_run _ _ _ _ _ Hl Hc Hk).
  by rewrite Hi, set_columns_unknown.
Qed.

(** C3. [update] with keyword arguments, on an entity that has its
    identity and its row: the snapshot is first replaced by the row as read
    before the call (whatever [_data] held is dropped, not merged), then
    the supplied values are written to the row and laid over the snapshot;
    the snapshot after the call is the row read before the call overlaid
    with the supplied values. *)
Theorem update_sync_then_apply w self o i c row kwargs :
  heap w !! self = Some o → _id o = Some i → database o = Some c →
  select_row (db w) (TABLE (class_of o)) i = Some row →
  DBObject.update self kwargs w
  = (Ok tt,
     {| db := set_columns_for_table (db w) (TABLE (class_of o)) kwargs (Some i);
        heap := <[self := set_data (kwargs ∪ row) o]> (heap w);
        next_loc := next_loc w |})
  ∧ ∀ k v, kwargs !! k = Some v →
      k ∈ t_columns (rel (db w) (TABLE (class_of o))) →
      k ≠ id_column (TABLE (class_of o)) →
      ∃ row',
        select_row
          (set_columns_for_table (db w) (TABLE (class_of o)) kwargs (Some i))
          (TABLE (class_of o)) i = Some row'
        ∧ row' !! k = Some v.
Proof.
  intros Hl Hi Hc Hrow. split.
  - unfold DBObject.update, bind.
    rewrite (sync_run _ _ _ _ _ _ Hl Hi Hc Hrow).
    destruct (decide (size kwargs = 0%nat)) as [Hz|Hnz].
    + apply map_size_empty_inv in Hz. subst kwargs.
      rewrite set_columns_empty, (left_id_L ∅ (∪)).
      unfold DBObject._set_data. cbn. done.
    + erewrite set_data_run; cbn; [| apply lookup_insert_eq | exact Hc | exact Hnz].
      rewrite insert_insert_eq. cbn. by rewrite Hi.
  - intros k v Hk Hcol Hne. eapply set_columns_lookup; eauto.
Qed.

(** ** Attribute access *)

(** C6, as the code has it. [__getattr__] answers from the snapshot when
    the name is there, and raises the unknown-attribute error exactly when
    the name is absent from the snapshot; [REQUIRED] is not consulted. *)
Theorem getattr_resolves_in_snapshot w self o name :
  heap w !! self = Some o →
  (∀ v, _data o !! name = Some v →
        DBObject.__getattr__ self name w = (Ok v, w))
  ∧ (DBObject.__getattr__ self name w
     = (Raise (AttributeError ("attribute '" ++ name ++ "' not found")), w)
     ↔ _data o !! name = None).
Proof.
  intros Hl. unfold DBObject.__getattr__, bind. rewrite (get_run _ _ _ Hl).
  split.
  - intros v Hv. by rewrite Hv.
  - destruct (_data o !! name); cbn; unfold ret, raise; split; congruence.
Qed.

(** ** The variability query *)

Lemma exceeds_spec x lim :
  exceeds x lim = true ↔ ∃ q, x = Some q ∧ (lim < q)%Q.
Proof.
  unfold exceeds, Qgtb. destruct x as [q|].
  - rewrite negb_true_iff. split.
    + intros H. exists q. split; [done|].
      apply Qnot_le_lt. intros Hle. apply Qle_bool_iff in Hle. congruence.
    + intros (q' & [= <-] & Hlt).
      destruct (Qle_bool q lim) eqn:E; [|done].
      apply Qle_bool_iff in E. exfalso. by apply (Qlt_not_le lim q).
  - split; [done | intros (q & [=] & _)].
Qed.

(** C9. [detect_variables] returns the running-catalogue entries of the
    dataset whose two variability indices both exceed the thresholds, and
    nothing else, and leaves store and objects as they were; the
    thresholds default to 0.2 and 3; of two entries with V=0.5, eta=10 and
    V=0.1, eta=1 only the first is returned for those thresholds. *)
Theorem detect_variables_query w self o c V_lim eta_lim :
  heap w !! self = Some o → database o = Some c →
  (∃ res,
      DataSet.detect_variables self V_lim eta_lim w = (Ok res, w)
      ∧ ∀ e, e ∈ res ↔
             e ∈ db_runningcatalog (db w)
             ∧ _id o = Some (rc_dataset e)
             ∧ (∃ v, rc_V e = Some v ∧ (threshold V_lim (2 # 10) < v)%Q)
             ∧ (∃ n, rc_eta e = Some n ∧ (threshold eta_lim (3 # 1) < n)%Q))
  ∧ (∀ e1 e2,
      db_runningcatalog (db w) = [e1; e2] →
      _id o = Some (rc_dataset e1) → _id o = Some (rc_dataset e2) →
      rc_V e1 = Some (5 # 10) → rc_eta e1 = Some (10 # 1) →
      rc_V e2 = Some (1 # 10) → rc_eta e2 = Some (1 # 1) →
      DataSet.detect_variables self (Some (2 # 10)) (Some (3 # 1)) w = (Ok [e1], w)
      ∧ DataSet.detect_variables self None None w = (Ok [e1], w)).
Proof.
  intros Hl Hc. split.
  - eexists. split.
    + unfold DataSet.detect_variables. mstep. reflexivity.
    + intros e. unfold detect_variable_sources, threshold.
      destruct (_id o) as [i|].
      * rewrite list_elem_of_filter, !exceeds_spec. split.
        -- intros ((<- & Hv & He) & Hin). done.
        -- intros (Hin & [= ->] & Hv & He). done.
      * split; [by intros ?%elem_of_nil | by intros (_ & [=] & _)].
  - intros e1 e2 Hcat H1 H2 HV1 He1 HV2 He2.
    assert (detect_variable_sources (db w) (_id o) (2 # 10) (3 # 1) = [e1]) as Hq.
    { rewrite H1. unfold detect_variable_sources. rewrite Hcat.
      rewrite filter_cons_True.
      2:{ rewrite HV1, He1. done. }
      rewrite filter_cons_False; [done|].
      rewrite HV2. intros (_ & Hv & _). done. }
    unfold DataSet.detect_variables. mstep. rewrite <- H2, Hq. done.
Qed.


(** ** Identities *)

Lemma foldr_max_ge (l : list Z) (k : Z) : k ∈ l → (k ≤ foldr Z.max 0 l)%Z.
Proof.
  induction l as [|a l IH]; cbn.
  - by intros ?%elem_of_nil.
  - intros [->|Hin]%elem_of_cons; [lia|]. specialize (IH Hin). lia.
Qed.

Lemma max_key_ge rows (k : Z) : is_Some (rows !! k) → (k ≤ max_key rows)%Z.
Proof.
  intros [row Hk]. unfold max_key. apply foldr_max_ge.
  apply list_elem_of_fmap. exists (k, row). split; [done|].
  by apply elem_of_map_to_list.
Qed.

(** A new identity is one that no row has. *)
Lemma next_id_fresh r : t_rows r !! next_id r = None.
Proof.
  destruct (t_rows r !! next_id r) eqn:E; [|done].
  assert (next_id r ≤ max_key (t_rows r))%Z by (apply max_key_ge; eauto).
  unfold next_id in *. lia.
Qed.

Lemma set_rel_runningcatalog d t r :
  db_runningcatalog (set_rel d t r) = db_runningcatalog d.
Proof. by destruct t. Qed.

Lemma insert_row_one d t data :
  one_row_inserted d (snd (insert_row d t data)) t (fst (insert_row d t data)).
Proof.
  unfold insert_row, one_row_inserted. cbn. rewrite rel_set_rel. cbn.
  split; [apply next_id_fresh|]. split; [eauto|]. split; [done|].
  split; [|apply set_rel_runningcatalog].
  intros t' Hne. by apply rel_set_rel_ne.
Qed.

Lemma insert_row_eq d t data i d' :
  insert_row d t data = (i, d') → one_row_inserted d d' t i.
Proof.
  intros H. pose proof (insert_row_one d t data) as Hone.
  by rewrite H in Hone.
Qed.

(** The row that an insertion stores, read back. *)
Lemma insert_row_select d t data :
  select_row (snd (insert_row d t data)) t (fst (insert_row d t data))
  = Some (<[id_column t := VInt (fst (insert_row d t data))]>
            (known (rel d t) data ∪ gset_to_gmap VNone (t_columns (rel d t)))).
Proof.
  unfold insert_row, select_row. cbn. rewrite rel_set_rel. cbn.
  by rewrite lookup_insert_eq.
Qed.

Lemma insert_row_read d t data i d' :
  insert_row d t data = (i, d') →
  ∃ row, select_row d' t i = Some row
    ∧ t_columns (rel d' t) = t_columns (rel d t)
    ∧ ∀ k v, data !! k = Some v → k ∈ t_columns (rel d t) → k ≠ id_column t →
             row !! k = Some v.
Proof.
  intros H. pose proof (insert_row_select d t data) as Hsel.
  pose proof (insert_row_one d t data) as (_ & _ & Hcols & _).
  rewrite H in Hsel, Hcols. cbn in Hsel, Hcols.
  eexists. split; [exact Hsel|]. split; [done|].
  intros k v Hk Hcol Hne. rewrite lookup_insert_ne by done.
  apply lookup_union_Some_l. unfold known.
  apply map_lookup_filter_Some. done.
Qed.

Lemma insert_row_full d t data i d' :
  insert_row d t data = (i, d') →
  (t_rows (rel d t) !! i = None
   ∧ (∃ stored, t_rows (rel d' t) = <[i := stored]> (t_rows (rel d t)))
   ∧ ∀ t', t' ≠ t → rel d' t' = rel d t')
  ∧ ∃ row, select_row d' t i = Some row
    ∧ t_columns (rel d' t) = t_columns (rel d t)
    ∧ ∀ k v, data !! k = Some v → k ∈ t_columns (rel d t) → k ≠ id_column t →
             row !! k = Some v.
Proof.
  intros H. split; [|by eapply insert_row_read].
  apply insert_row_eq in H as (? & ? & ? & ? & ?). done.
Qed.

(** The statement of [DBObject.id], when the engine accepts it. *)
Lemma execute_insert_Some d t data i d' :
  execute_insert d t data = Some (i, d') →
  accepts d t data
  ∧ one_row_inserted d d' t i
  ∧ select_row d' t i
    = Some (<[id_column t := VInt i]>
              (known (rel d t) data ∪ gset_to_gmap VNone (t_columns (rel d t)))).
Proof.
  unfold execute_insert. case_decide as Hacc; [|done]. intros [= <- <-].
  split; [done|]. unfold one_row_inserted, select_row.
  rewrite rel_set_rel. cbn. rewrite lookup_insert_eq. cbn.
  split; [|done]. split.
  { destruct Hacc as (_ & _ & Hfree).
    destruct (data !! id_column t) as [[]|]; cbn in Hfree; try done.
    all: apply next_id_fresh. }
  split; [eauto|]. split; [done|].
  split; [|apply set_rel_runningcatalog].
  intros t' Hne. by apply rel_set_rel_ne.
Qed.

Lemma execute_insert_full d t data i d' :
  execute_insert d t data = Some (i, d') →
  (t_rows (rel d t) !! i = None
   ∧ (∃ stored, t_rows (rel d' t) = <[i := stored]> (t_rows (rel d t)))
   ∧ ∀ t', t' ≠ t → rel d' t' = rel d t')
  ∧ ∃ row, select_row d' t i = Some row
    ∧ t_columns (rel d' t) = t_columns (rel d t)
    ∧ ∀ k v, data !! k = Some v → k ∈ t_columns (rel d t) → k ≠ id_column t →
             row !! k = Some v.
Proof.
  intros (_ & (Hfresh & Hrows & Hcols & Hframe & _) & Hsel)%execute_insert_Some.
  split; [done|]. eexists. split; [exact Hsel|]. split; [done|].
  intros k v Hk Hcol Hne. rewrite lookup_insert_ne by done.
  apply lookup_union_Some_l. unfold known.
  apply map_lookup_filter_Some. done.
Qed.

Lemma execute_insert_accepts d t data :
  accepts d t data →
  ∃ i d', execute_insert d t data = Some (i, d') ∧ one_row_inserted d d' t i.
Proof.
  intros Hacc.
  destruct (execute_insert d t data) as [[i d']|] eqn:E.
  - exists i, d'. split; [done|]. by apply execute_insert_Some in E as (_ & ? & _).
  - unfold execute_insert in E. by rewrite decide_True in E.
Qed.

(** Once [_id] is set, the getter of each of the three [id] properties
    returns it and touches nothing, and so does the expression [obj.id]. *)
Lemma DataSet_id_assigned w self o i :
  heap w !! self = Some o → _id o = Some i → DataSet.id self w = (Ok i, w).
Proof. intros Hl Hi. unfold DataSet.id. by mstep. Qed.

Lemma Image_id_assigned w self o i :
  heap w !! self = Some o → _id o = Some i → Image.id self w = (Ok i, w).
Proof. intros Hl Hi. unfold Image.id. by mstep. Qed.

Lemma DBObject_id_assigned w self o i :
  heap w !! self = Some o → _id o = Some i → DBObject.id self w = (Ok i, w).
Proof. intros Hl Hi. unfold DBObject.id. by mstep. Qed.

Lemma prop_id_assigned w self o i :
  heap w !! self = Some o → _id o = Some i → prop_id self w = (Ok i, w).
Proof.
  intros Hl Hi. unfold prop_id. mstep.
  destruct (class_of o);
    eauto using DataSet_id_assigned, Image_id_assigned, DBObject_id_assigned.
Qed.

Lemma getattr_id_returns getter obj i w w' :
  getter obj w = (Ok i, w') →
  DBObject.getattr_id getter obj w = (Ok (VInt i), w').
Proof. intros H. unfold DBObject.getattr_id. by rewrite H. Qed.

(** The first evaluation of the getter on an object without identity. *)
Lemma DataSet_id_fresh w self o c v :
  heap w !! self = Some o → _id o = None → database o = Some c →
  _data o !! "dsinname" = Some v →
  DataSet.id self w
  = (Ok (fst (insert_dataset (db w) v)),
     {| db := snd (insert_dataset (db w) v);
        heap := <[self := set_id (Some (fst (insert_dataset (db w) v))) o]> (heap w);
        next_loc := next_loc w |}).
Proof.
  intros Hl Hi Hc Hv. unfold DataSet.id. mstep.
  destruct (insert_dataset (db w) v) as [i d'] eqn:E. mstep.
  unfold modify. cbn. rewrite Hl. done.
Qed.

Lemma DBObject_id_fresh w self o c i d' :
  heap w !! self = Some o → _id o = None → database o = Some c →
  execute_insert (db w) (TABLE (class_of o)) (_data o) = Some (i, d') →
  DBObject.id self w
  = (Ok i,
     {| db := d';
        heap := <[self := set_id (Some i) o]> (heap w);
        next_loc := next_loc w |}).
Proof.
  intros Hl Hi Hc Hins. unfold DBObject.id. mstep.
  rewrite Hins. mstep. unfold modify. cbn. rewrite Hl. done.
Qed.

Lemma Image_id_fresh w self o c ds dso j freq_eff freq_bw taustart_ts url :
  heap w !! self = Some o → _id o = None → database o = Some c →
  dataset o = Some ds → heap w !! ds = Some dso →
  class_of dso = DataSet → _id dso = Some j →
  _data o !! "freq_eff" = Some freq_eff → _data o !! "freq_bw" = Some freq_bw →
  _data o !! "taustart_ts" = Some taustart_ts → _data o !! "url" = Some url →
  let ins := insert_image (db w) (VInt j) freq_eff freq_bw taustart_ts url in
  Image.id self w
  = (Ok (fst ins),
     {| db := snd ins;
        heap := <[self := set_id (Some (fst ins)) o]> (heap w);
        next_loc := next_loc w |}).
Proof.
  intros Hl Hi Hc Hds Hdso Hcls Hj H1 H2 H3 H4 ins.
  unfold Image.id. mstep. unfold expect. mstep.
  rewrite (getattr_id_returns _ _ _ _ _ (DataSet_id_assigned _ _ _ _ Hdso Hj)).
  mstep. fold ins. destruct ins as [i d']. mstep.
  unfold modify. cbn. rewrite Hl. done.
Qed.

Lemma prop_id_fresh w self o :
  heap w !! self = Some o → _id o = None → can_insert w o →
  ∃ i w', prop_id self w = (Ok i, w')
          ∧ one_row_inserted (db w) (db w') (TABLE (class_of o)) i.
Proof.
  intros Hl Hi [[c Hc] Hcan]. unfold prop_id. mstep.
  destruct (class_of o) eqn:Hcls.
  - destruct Hcan as [v Hv].
    rewrite (DataSet_id_fresh _ _ _ _ _ Hl Hi Hc Hv). eexists _, _.
    split; [done|]. cbn. apply insert_row_one.
  - destruct Hcan as ((ds & dso & Hds & Hdso & Hdc & [j Hj])
                      & [v1 H1] & [v2 H2] & [v3 H3] & [v4 H4]).
    rewrite (Image_id_fresh _ _ _ _ _ _ _ _ _ _ _ Hl Hi Hc Hds Hdso Hdc Hj H1 H2 H3 H4).
    eexists _, _. split; [done|]. cbn. apply insert_row_one.
  - change tbl_extractedsources with (TABLE ExtractedSource) in Hcan.
    rewrite <- Hcls in Hcan.
    destruct (execute_insert_accepts _ _ _ Hcan) as (i & d' & Hins & Hone).
    rewrite (DBObject_id_fresh _ _ _ _ _ _ Hl Hi Hc Hins). eexists _, _.
    split; [done|]. cbn. by rewrite Hcls in Hone.
Qed.

(** ** Tracing a method back from its outcome *)

Ltac unfold_methods H :=
  unfold DataSet.new, Image.new, ExtractedSource.new,
    DataSet.__init__, Image.__init__, ExtractedSource.__init__,
    Image.adopt_dataset, ExtractedSource.adopt_image,
    DBObject.__init__, DBObject._init_data, DBObject.update,
    DBObject._sync_with_database, DBObject._set_data,
    DBObject.getattr_id, Image.id, DBObject.getattr_id, DataSet.id,
    DBObject.id, DBObject.__getattr__ in H.

Ltac unfold_prims H :=
  unfold expect in H;
  unfold bind, ret, raise, get_db, put_db, connection, cursor, getitem,
    get, modify, alloc in H; cbn in H.

(** Case analysis on the next test that a run of a method makes. *)
Ltac inv_step H :=
  first
    [ discriminate H
    | rewrite insert_insert_eq in H
    | rewrite lookup_insert_eq in H
    | rewrite lookup_insert_ne in H by done
    | match type of H with
      | context [<[?l := _]> _ !! ?l'] =>
          destruct (decide (l = l')) as [?|?]; [subst|]
      end
    | match type of H with
      | context [match ?x with _ => _ end] =>
          lazymatch x with
          | context [match _ with _ => _ end] => fail
          | context [<[_ := _]> _ !! _] => fail
          | _ =>
              match goal with
              | E : x = _ |- _ => rewrite E in H
              | _ => destruct x eqn:?
              end
          end
      end ];
  cbn in H.

(** What the insertions recorded in the context did to the other
    relations. *)
Ltac frame_tables :=
  repeat match goal with
    | Hf : ∀ t', t' ≠ tbl_datasets → rel ?d' t' = rel ?d t' |- _ =>
        pose proof (Hf tbl_images ltac:(done));
        pose proof (Hf tbl_extractedsources ltac:(done)); clear Hf
    | Hf : ∀ t', t' ≠ tbl_images → rel ?d' t' = rel ?d t' |- _ =>
        pose proof (Hf tbl_datasets ltac:(done));
        pose proof (Hf tbl_extractedsources ltac:(done)); clear Hf
    | Hf : ∀ t', t' ≠ tbl_extractedsources → rel ?d' t' = rel ?d t' |- _ =>
        clear Hf
    end; cbn in *.

Ltac rewrite_frames :=
  repeat match goal with
    | Hr : db_datasets _ = db_datasets _ |- _ => rewrite Hr in *; clear Hr
    | Hr : db_images _ = db_images _ |- _ => rewrite Hr in *; clear Hr
    | Hr : db_extractedsources _ = db_extractedsources _ |- _ =>
        rewrite Hr in *; clear Hr
    end.

(** C8, as the code has it. Once [_id] is set, the getter of [id]
    returns it and changes nothing, neither row nor object, and the
    expression [obj.id] has that value.  On an object without identity, an
    evaluation of the getter that returns has inserted exactly one row
    into the relation of the class, under an identity that no row had, and
    has stored that identity; from then on the getter returns it and
    changes nothing.  The evaluation does return when the database and the
    items it reads are there and, for an ExtractedSource, the engine
    accepts the INSERT of the snapshot. *)
Theorem identity_assigned_once w self o :
  heap w !! self = Some o →
  (∀ i, _id o = Some i →
        prop_id self w = (Ok i, w)
        ∧ DBObject.getattr_id prop_id self w = (Ok (VInt i), w))
  ∧ (_id o = None → ∀ i w', prop_id self w = (Ok i, w') →
       (t_rows (rel (db w) (TABLE (class_of o))) !! i = None
        ∧ ∃ row, t_rows (rel (db w') (TABLE (class_of o)))
                 = <[i := row]> (t_rows (rel (db w) (TABLE (class_of o)))))
       ∧ heap w' !! self = Some (set_id (Some i) o)
       ∧ prop_id self w' = (Ok i, w'))
  ∧ (_id o = None → can_insert w o →
       ∃ i w', prop_id self w = (Ok i, w')
               ∧ one_row_inserted (db w) (db w') (TABLE (class_of o)) i).
Proof.
  intros Hl. split; [|split].
  - intros i Hi.
    assert (prop_id self w = (Ok i, w)) as Hp
      by (eapply prop_id_assigned; eauto).
    split; [done|]. by apply getattr_id_returns.
  - intros Hi i w' H.
    assert (heap w' !! self = Some (set_id (Some i) o)
            ∧ t_rows (rel (db w) (TABLE (class_of o))) !! i = None
            ∧ ∃ row, t_rows (rel (db w') (TABLE (class_of o)))
                     = <[i := row]> (t_rows (rel (db w) (TABLE (class_of o)))))
      as (Hl' & Hfresh & Hrows).
    { unfold prop_id in H. unfold_methods H. unfold_prims H.
      rewrite Hl in H. cbn in H.
      destruct (class_of o) eqn:Hcls; rewrite Hl in H; cbn in H.
      all: repeat inv_step H.
      all: simplify_eq; cbn.
      all: try congruence.
      all: split; [by rewrite lookup_insert_eq|].
      all: unfold insert_dataset, insert_image in *.
      all: repeat match goal with
             | Hi : insert_row _ _ _ = _ |- _ =>
                 apply insert_row_eq in Hi as (? & [? ?] & ? & ? & ?)
             | Hi : execute_insert _ _ _ = _ |- _ =>
                 apply execute_insert_Some in Hi
                   as (_ & (? & [? ?] & ? & ? & ?) & _)
             end.
      all: frame_tables.
      all: try rewrite Hcls in *; cbn in *.
      all: rewrite_frames; eauto. }
    split; [done|]. split; [done|].
    eapply prop_id_assigned; eauto.
  - intros Hi Hcan. by apply prop_id_fresh.
Qed.

(** ** Images and their dataset *)

(** C7, as the code has it. An Image whose constructor returns, having
    been given a dataset, is in the [images] of that dataset; and when it
    was created fresh from data without a [ds_id] item and a dataset that
    has its identity, its [ds_id] is the identity of the dataset. *)
Theorem image_ds_id_of_dataset w data ds database_ id_ l w' :
  Image.new data (Some ds) database_ id_ w = (Ok l, w') →
  (∃ dso, heap w' !! ds = Some dso ∧ l ∈ images dso)
  ∧ (id_ = None →
     match data with Some d => d !! "ds_id" | None => None end = None →
     ∀ j, _id <$> heap w !! ds = Some (Some j) →
          _id <$> heap w' !! ds = Some (Some j)
          ∧ DBObject.__getattr__ l "ds_id" w' = (Ok (VInt j), w')).
Proof.
  intros H. unfold_methods H. unfold_prims H.
  repeat inv_step H.
  all: simplify_eq; cbn.
  all: split;
    [ eexists; split; [ by simplify_map_eq | cbn; set_solver ] | ].
  all: intros ? Hd j Hj; simplify_eq.
  all: unfold DBObject.__getattr__, bind, get, ret, raise; cbn.
  all: rewrite lookup_insert_eq; cbn.
  all: unfold setdefault; rewrite Hd, lookup_insert_eq.
  all: split; [|done].
  all: rewrite lookup_insert_ne by done; rewrite lookup_insert_eq; cbn.
  all: congruence.
Qed.

(** ** Construction without a database *)

(** The part of the heap that a constructor leaves alone. *)
Ltac frame_heap :=
  split; [done|]; split;
  [ let l := fresh "l" in
    let o := fresh "o" in
    let Hne := fresh "Hne" in
    let Hl := fresh "Hl" in
    intros l o Hne Hl;
    repeat match goal with
      | |- context [<[?a := _]> _ !! l] =>
          destruct (decide (a = l));
          [ subst; rewrite lookup_insert_eq
          | rewrite lookup_insert_ne by done ]
      end;
    try done;
    eexists; (split; [done || eassumption|]); cbn; congruence
  | repeat first [ rewrite lookup_insert_eq | rewrite lookup_insert_ne by done ];
    done ].

(** C10. Constructing a DataSet, an Image or an ExtractedSource with no
    database given and none to be had from the dataset or image given
    raises an exception; the store is left as it was, no object that
    existed gets another identity, and the object under construction keeps
    the [id] it was given (none, for a fresh one). *)
Theorem construct_without_database w c data owner id_ :
  no_database_via w owner →
  ∃ e w',
    construct c data owner None id_ w = (Raise e, w')
    ∧ db w' = db w
    ∧ (∀ l o, l ≠ next_loc w → heap w !! l = Some o →
              ∃ o', heap w' !! l = Some o' ∧ _id o' = _id o)
    ∧ _id <$> heap w' !! next_loc w = Some id_.
Proof.
  intros Hno.
  destruct (construct c data owner None id_ w) as [r w'] eqn:H.
  assert (∀ p po, owner = Some p → heap w !! p = Some po → database po = None)
    as Hown.
  { intros p po -> Hp. by destruct (Hno po Hp). }
  assert (∀ p po ds dso, owner = Some p → heap w !! p = Some po →
            dataset po = Some ds → heap w !! ds = Some dso →
            database dso = None) as Hds.
  { intros p po ds dso -> Hp. destruct (Hno po Hp) as [_ Hd]. apply Hd. }
  clear Hno.
  destruct c; cbn in H; unfold_methods H; unfold_prims H.
  - repeat inv_step H.
    all: simplify_eq; eexists _, _; split; [done|]; cbn; frame_heap.
  - repeat inv_step H.
    all: simplify_eq.
    all: try (erewrite Hown in *; [|done..]; simplify_eq).
    all: eexists _, _; split; [done|]; cbn; frame_heap.
  - repeat inv_step H.
    all: simplify_eq.
    all: try (erewrite Hown in *; [|done..]; simplify_eq).
    all: try match goal with
           | Hp : heap _ !! ?p = Some ?po, Hd : dataset ?po = Some ?ds,
             Hdso : heap _ !! ?ds = Some ?dso, Hc : database ?dso = Some _
             |- _ =>
               pose proof (Hds p po ds dso eq_refl Hp Hd Hdso); congruence
           end.
    all: eexists _, _; split; [done|]; cbn; frame_heap.
Qed.

(** ** Creating and loading *)

(** Loading by identity: the constructor called with [id] and a database,
    on a store that has the row. *)
Lemma load_run c w i row :
  select_row (db w) (TABLE c) i = Some row →
  ∃ o2,
    construct c None None (Some Connection) (Some i) w
    = (Ok (next_loc w),
       {| db := db w; heap := <[next_loc w := o2]> (heap w);
          next_loc := S (next_loc w) |})
    ∧ class_of o2 = c ∧ _id o2 = Some i ∧ _data o2 = row
    ∧ database o2 = Some Connection.
Proof.
  intros Hrow.
  destruct c; cbn in Hrow |- *.
  all: unfold DataSet.new, Image.new, ExtractedSource.new,
    DataSet.__init__, Image.__init__, ExtractedSource.__init__,
    DBObject.__init__, DBObject._init_data, DBObject.update,
    DBObject._sync_with_database, DBObject._set_data.
  all: unfold bind, ret, raise, get_db, put_db, connection, get, modify, alloc; cbn.
  all: repeat (rewrite lookup_insert_eq; cbn).
  all: rewrite (columns_from_table_Some _ _ _ _ Hrow); cbn.
  all: repeat (rewrite lookup_insert_eq; cbn).
  all: repeat rewrite insert_insert_eq.
  all: eexists; split; [reflexivity|]; done.
Qed.

Lemma setdefault_lookup_ne key v d k : k ≠ key → setdefault key v d !! k = d !! k.
Proof.
  intros Hne. unfold setdefault. destruct (d !! key); [done|].
  by rewrite lookup_insert_ne.
Qed.

Lemma setdefault_lookup_Some key v d k x :
  d !! k = Some x → setdefault key v d !! k = Some x.
Proof.
  intros Hk. unfold setdefault. destruct (d !! key) eqn:E; [done|].
  rewrite lookup_insert_ne; [done|]. congruence.
Qed.

Ltac required_present :=
  let key := fresh "key" in
  let Hin := fresh "Hin" in
  intros key Hin; set_unfold in Hin;
  repeat (destruct Hin as [->|Hin]; [eauto|]); try done; destruct Hin.

Ltac lookup_past_setdefault :=
  repeat match goal with
    | Hs : setdefault ?key _ _ !! ?k = _ |- _ =>
        rewrite setdefault_lookup_ne in Hs by done
    end.

(** A creation that returns has a database, found every required item in
    [_data], has stored exactly one more row in the relation of the class, under the
    identity of the new object, and the row holds the supplied values that
    the insertion of the class passes on.  For an Image the data must not
    have an item named [id], which [self.id] would fall back on. *)
Lemma create_inv c data owner database_ w l w1 :
  (c = Image → data !! "id" = None) →
  construct c (Some data) owner database_ None w = (Ok l, w1) →
  ∃ o i row,
    heap w1 !! l = Some o ∧ class_of o = c ∧ _id o = Some i
    ∧ is_Some (database o)
    ∧ (∀ key, key ∈ REQUIRED c → is_Some (_data o !! key))
    ∧ t_rows (rel (db w) (TABLE c)) !! i = None
    ∧ (∃ stored, t_rows (rel (db w1) (TABLE c))
                 = <[i := stored]> (t_rows (rel (db w) (TABLE c))))
    ∧ select_row (db w1) (TABLE c) i = Some row
    ∧ ∀ k v, data !! k = Some v → inserted_from_data c k →
             k ∈ t_columns (rel (db w1) (TABLE c)) → k ≠ ID c →
             row !! k = Some v.
Proof.
  intros Hid H. destruct c; cbn in H; unfold_methods H; unfold_prims H.
  - clear Hid. repeat inv_step H.
    all: simplify_eq; cbn.
    all: unfold insert_dataset in *.
    all: match goal with
         | Hi : insert_row _ _ _ = _ |- _ =>
             apply insert_row_full in Hi
               as ((Hfresh & Hstored & _) & row & Hsel & Hcols & Hrow)
         end.
    all: eexists _, _, row; rewrite lookup_insert_eq; cbn.
    all: do 3 (split; [done|]).
    all: split; [cbn; eauto|].
    all: split; [required_present|].
    all: do 3 (split; [done|]).
    all: intros k x Hk -> Hcol Hne; apply Hrow; cbn in *; try congruence.
    all: rewrite lookup_singleton_eq; congruence.
  - specialize (Hid eq_refl). repeat inv_step H.
    all: simplify_eq; cbn.
    all: try (lookup_past_setdefault; congruence).
    all: unfold insert_image, insert_dataset in *.
    all: match goal with
         | Hi : insert_row _ tbl_images _ = _ |- _ =>
             apply insert_row_full in Hi
               as ((Hfresh & Hstored & _) & row & Hsel & Hcols & Hrow)
         end.
    all: try match goal with
         | Hi : insert_row _ tbl_datasets _ = _ |- _ =>
             apply insert_row_full in Hi as ((_ & _ & Hf) & _)
         end.
    all: frame_tables.
    all: eexists _, _, row; rewrite lookup_insert_eq; cbn.
    all: do 3 (split; [done|]).
    all: split; [cbn; eauto|].
    all: split; [required_present|].
    all: split; [congruence|].
    all: split; [ destruct Hstored as [stored Hst]; exists stored; congruence |].
    all: split; [done|].
    all: intros k x Hk Hin Hcol Hne; apply Hrow; cbn in *; try congruence.
    all: lookup_past_setdefault.
    all: set_unfold in Hin; destruct Hin as [->|[->|[->|[->|[]]]]].
    all: simplify_map_eq; try done.
  - clear Hid. repeat inv_step H.
    all: simplify_eq; cbn.
    all: unfold insert_image, insert_dataset in *.
    all: match goal with
         | Hi : execute_insert _ tbl_extractedsources _ = _ |- _ =>
             apply execute_insert_full in Hi
               as ((Hfresh & Hstored & _) & row & Hsel & Hcols & Hrow)
         end.
    all: repeat match goal with
         | Hi : insert_row _ _ _ = _ |- _ =>
             apply insert_row_full in Hi as ((_ & _ & ?) & _)
         end.
    all: frame_tables.
    all: eexists _, _, row; rewrite lookup_insert_eq; cbn.
    all: do 3 (split; [done|]).
    all: split; [cbn; eauto|].
    all: split; [required_present|].
    all: split; [congruence|].
    all: split; [ destruct Hstored as [stored Hst]; exists stored; congruence |].
    all: split; [done|].
    all: intros k x Hk _ Hcol Hne; apply Hrow; cbn in *; try congruence.
    all: try (by apply setdefault_lookup_Some).
Qed.

Lemma not_all_present (keys : list string) (d : gmap string value) key :
  key ∈ keys → d !! key = None → Forall (λ k, is_Some (d !! k)) keys → False.
Proof.
  intros Hin Hnone Hall. rewrite Forall_forall in Hall.
  destruct (Hall key Hin) as [v Hv]. congruence.
Qed.

(** The end of a run of a constructor on a dictionary that lacks a required
    name: the run has raised the missing-key error, or is impossible. *)
Ltac miss_leaf Hkey Hmiss :=
  first
    [ done
    | congruence
    | exfalso; apply (not_all_present _ _ _ Hkey Hmiss);
      repeat (constructor; [eauto|]); constructor
    | eexists _, _; split; [reflexivity|]; cbn; split; [done|];
      split; [ repeat (apply elem_of_cons; first [by left | right]) | done ] ].

Lemma create_missing_required w c data owner database_ key :
  owner_ready w c owner → database_reachable w c owner database_ →
  key ∈ REQUIRED c → filled_in w c owner data !! key = None →
  ∃ key' w',
    construct c (Some data) owner database_ None w
    = (Raise (AttributeError ("missing required data key: " ++ key')), w')
    ∧ db w' = db w
    ∧ key' ∈ REQUIRED c ∧ filled_in w c owner data !! key' = None.
Proof.
  intros Hready Hreach Hkey Hmiss.
  destruct (construct c (Some data) owner database_ None w) as [r w'] eqn:H.
  destruct c; cbn in H; unfold_methods H; unfold_prims H.
  - destruct Hreach as [[conn ->]|(p & _ & [conn Hvia])]; [|done].
    cbn in *. repeat inv_step H.
    all: simplify_eq.
    all: miss_leaf Hkey Hmiss.
  - destruct owner as [p|].
    + destruct Hready as (Hne & po & Hp & Hcls & [j Hj]).
      cbn in Hmiss |- *.
      rewrite Hp in Hmiss |- *; cbn in Hmiss |- *. rewrite Hj in Hmiss |- *.
      destruct Hreach as [[conn ->]|(p' & [= <-] & [conn Hvia])].
      * repeat inv_step H.
        all: simplify_eq.
        all: miss_leaf Hkey Hmiss.
      * cbn in Hvia. rewrite Hp in Hvia. cbn in Hvia.
        repeat inv_step H.
        all: simplify_eq.
        all: miss_leaf Hkey Hmiss.
    + destruct Hreach as [[conn ->]|(p' & [=] & _)].
      cbn in *. repeat inv_step H.
      all: simplify_eq.
      all: miss_leaf Hkey Hmiss.
  - destruct owner as [p|].
    + destruct Hready
        as (Hne & po & ds & dso & Hp & Hcls & [j Hj] & Hds & Hdso & Hdne).
      cbn in Hmiss |- *.
      rewrite Hp in Hmiss |- *; cbn in Hmiss |- *. rewrite Hj in Hmiss |- *.
      destruct Hreach as [[conn ->]|(p' & [= <-] & [conn Hvia])].
      * repeat inv_step H.
        all: simplify_eq.
        all: miss_leaf Hkey Hmiss.
      * cbn in Hvia. rewrite Hp in Hvia. cbn in Hvia.
        rewrite Hds, Hdso in Hvia. cbn in Hvia.
        repeat inv_step H.
        all: simplify_eq.
        all: miss_leaf Hkey Hmiss.
    + destruct Hreach as [[conn ->]|(p' & [=] & _)].
      cbn in *. repeat inv_step H.
      all: simplify_eq.
      all: miss_leaf Hkey Hmiss.
Qed.

Ltac presence Hall key :=
  let v := fresh "v" in
  let Hv := fresh "Hv" in
  assert (is_Some (_ !! key)) as [v Hv]
    by (apply Hall; repeat (apply elem_of_cons; first [by left | right]));
  cbn in Hv.

Ltac returned_leaf :=
  simplify_eq;
  (eexists _, _, _; (split; [reflexivity|]); cbn;
   rewrite lookup_insert_eq; (split; [reflexivity|]); cbn; eauto).

Ltac required_items Hall :=
  presence Hall "image_id"; presence Hall "zone"; presence Hall "ra";
  presence Hall "decl"; presence Hall "ra_err"; presence Hall "decl_err";
  presence Hall "x"; presence Hall "y"; presence Hall "z";
  presence Hall "det_sigma".

(** A creation from a dictionary that, once filled in, has every required
    name does return, when a database is passed or the owner leads to
    one, the owner is ready and the insertion can be carried out: for an
    Image the dataset and the [url] are there, for an ExtractedSource the
    engine accepts the INSERT of the dictionary. *)
Lemma create_succeeds w c data owner database_ :
  owner_ready w c owner → database_reachable w c owner database_ →
  insert_ready w c owner data →
  (∀ key, key ∈ REQUIRED c → is_Some (filled_in w c owner data !! key)) →
  ∃ l w1 o,
    construct c (Some data) owner database_ None w = (Ok l, w1)
    ∧ heap w1 !! l = Some o ∧ is_Some (database o).
Proof.
  intros Hready Hreach Hins Hall.
  destruct (construct c (Some data) owner database_ None w) as [r w'] eqn:H.
  destruct c; cbn in H; unfold_methods H; unfold_prims H.
  - destruct Hreach as [[conn ->]|(p & _ & [conn Hvia])]; [|done].
    cbn in Hall. presence Hall "dsinname".
    repeat inv_step H.
    all: returned_leaf.
  - destruct Hins as [[p ->] [u Hu]]. cbn in Hready, Hall.
    destruct Hready as (Hne & po & Hp & Hcls & [j Hj]).
    rewrite Hp in Hall; cbn in Hall. rewrite Hj in Hall.
    presence Hall "ds_id". presence Hall "tau_time". presence Hall "freq_eff".
    presence Hall "freq_bw". presence Hall "taustart_ts".
    pose proof (setdefault_lookup_Some "ds_id" (VInt j) _ _ _ Hu) as Hu'.
    destruct Hreach as [[conn ->]|(p' & [= <-] & [conn Hvia])].
    + repeat inv_step H.
      all: returned_leaf.
    + cbn in Hvia. rewrite Hp in Hvia. cbn in Hvia.
      repeat inv_step H.
      all: returned_leaf.
  - apply execute_insert_accepts in Hins as (i & d' & Hins & _).
    destruct owner as [p|]; cbn in Hready, Hall, Hins.
    + destruct Hready
        as (Hne & po & ds & dso & Hp & Hcls & [j Hj] & Hds & Hdso & Hdne).
      rewrite Hp in Hall, Hins; cbn in Hall, Hins. rewrite Hj in Hall, Hins.
      required_items Hall.
      destruct Hreach as [[conn ->]|(p' & [= <-] & [conn Hvia])].
      * repeat inv_step H.
        all: returned_leaf.
      * cbn in Hvia. rewrite Hp in Hvia. cbn in Hvia.
        rewrite Hds, Hdso in Hvia. cbn in Hvia.
        repeat inv_step H.
        all: returned_leaf.
    + destruct Hreach as [[conn ->]|(p' & [=] & _)].
      required_items Hall.
      repeat inv_step H.
      all: returned_leaf.
Qed.

(** C4, as the code has it. The required names are looked for in [_data]
    after a dataset or image given to the constructor has filled in
    [ds_id] or [image_id].  Given a ready owner and a database, passed or
    reached through the owner: when a required name is still absent,
    creation raises the missing-key AttributeError and the store is left
    as it was; when they are all there, creation returns, provided the
    insertion can be carried out (for an Image the dataset and the [url]
    are there, for an ExtractedSource the engine accepts the INSERT of the
    filled-in dictionary).  A creation that returns found them all, has
    stored exactly one more row in the relation of the class, and the new
    object holds the identity of that row (for an Image, when the data
    have no item named [id]). *)
Theorem create_checks_required w c data owner :
  (∀ database_ key,
     owner_ready w c owner → database_reachable w c owner database_ →
     key ∈ REQUIRED c → filled_in w c owner data !! key = None →
     ∃ key' w',
       construct c (Some data) owner database_ None w
       = (Raise (AttributeError ("missing required data key: " ++ key')), w')
       ∧ db w' = db w
       ∧ key' ∈ REQUIRED c ∧ filled_in w c owner data !! key' = None)
  ∧ (∀ database_,
       owner_ready w c owner → database_reachable w c owner database_ →
       insert_ready w c owner data →
       (∀ key, key ∈ REQUIRED c → is_Some (filled_in w c owner data !! key)) →
       ∃ l w1, construct c (Some data) owner database_ None w = (Ok l, w1))
  ∧ (∀ database_ l w1,
       (c = Image → data !! "id" = None) →
       construct c (Some data) owner database_ None w = (Ok l, w1) →
       ∃ o i,
         heap w1 !! l = Some o ∧ _id o = Some i
         ∧ (∀ key, key ∈ REQUIRED c → is_Some (_data o !! key))
         ∧ t_rows (rel (db w) (TABLE c)) !! i = None
         ∧ ∃ stored, t_rows (rel (db w1) (TABLE c))
                     = <[i := stored]> (t_rows (rel (db w) (TABLE c)))).
Proof.
  split; [|split].
  - intros database_ key Hready Hreach Hkey Hmiss.
    by eapply create_missing_required.
  - intros database_ Hready Hreach Hins Hall.
    destruct (create_succeeds w c data owner database_ Hready Hreach Hins Hall)
      as (l & w1 & _ & Hrun & _).
    eauto.
  - intros database_ l w1 Hid H.
    apply create_inv in H
      as (o & i & row & Hl & _ & Hi & _ & Hreq & Hfresh & Hst & _); [|done].
    eauto 10.
Qed.

(** C1, as the code has it. After a creation that returns, loading a new
    object by the identity that was assigned returns, writes nothing, and
    the snapshot of the loaded object agrees with the supplied attributes
    on every data column that the insertion of the class passes to the
    store: [dsinname] for a DataSet; [freq_eff], [freq_bw], [taustart_ts]
    and [url] for an Image (whose data have no item named [id]); every
    supplied name for an ExtractedSource. *)
Theorem create_then_load_round_trip w c data owner database_ l w1 :
  (c = Image → data !! "id" = None) →
  construct c (Some data) owner database_ None w = (Ok l, w1) →
  ∃ i l2 w2 o2,
    _id <$> heap w1 !! l = Some (Some i)
    ∧ construct c None None (Some Connection) (Some i) w1 = (Ok l2, w2)
    ∧ db w2 = db w1
    ∧ heap w2 !! l2 = Some o2 ∧ _id o2 = Some i
    ∧ ∀ k v, data !! k = Some v → inserted_from_data c k →
             k ∈ t_columns (rel (db w1) (TABLE c)) → k ≠ ID c →
             _data o2 !! k = Some v.
Proof.
  intros Hid H.
  apply create_inv in H
    as (o & i & row & Hl & _ & Hi & _ & _ & _ & _ & Hsel & Hrow); [|done].
  destruct (load_run c w1 i row Hsel) as (o2 & Hload & _ & Hi2 & Hd2 & _).
  eexists i, _, _, o2. rewrite Hl. cbn. rewrite Hi.
  split; [done|]. split; [exact Hload|]. cbn.
  split; [done|]. rewrite lookup_insert_eq. split; [done|]. split; [done|].
  rewrite Hd2. exact Hrow.
Qed.

(** An entity whose constructor returned, fresh or loaded, is one that
    [update] works on: it has its identity, a database, and its row. *)
Lemma constructed_is_persisted w c data owner database_ l w1 :
  (c = Image → data !! "id" = None) →
  construct c (Some data) owner database_ None w = (Ok l, w1) →
  ∃ o i conn row,
    heap w1 !! l = Some o ∧ _id o = Some i ∧ database o = Some conn
    ∧ select_row (db w1) (TABLE (class_of o)) i = Some row.
Proof.
  intros Hid H.
  apply create_inv in H
    as (o & i & row & Hl & Hc & Hi & [conn Hdb] & _ & _ & _ & Hsel & _);
    [|done].
  exists o, i, conn, row. by rewrite Hc.
Qed.

Lemma loaded_is_persisted w c i row :
  select_row (db w) (TABLE c) i = Some row →
  ∃ l w1 o,
    construct c None None (Some Connection) (Some i) w = (Ok l, w1)
    ∧ heap w1 !! l = Some o ∧ _id o = Some i
    ∧ database o = Some Connection
    ∧ select_row (db w1) (TABLE (class_of o)) i = Some row.
Proof.
  intros Hsel.
  destruct (load_run c w i row Hsel) as (o2 & Hload & Hc & Hi & _ & Hdb).
  eexists _, _, o2. split; [exact Hload|]. cbn.
  rewrite lookup_insert_eq, Hc. done.
Qed.

(** * The statements on the objects of the docstring *)

Lemma with_dataset_run :
  DataSet.new (Some dataset_data) (Some Connection) None empty_world
  = (Ok 0%nat, with_dataset).
Proof. vm_compute. reflexivity. Qed.

Lemma with_image_run :
  Image.new (Some image_data) (Some 0%nat) None None with_dataset
  = (Ok 1%nat, with_image).
Proof. vm_compute. reflexivity. Qed.

Lemma image_object_lookup : heap with_image !! 1%nat = Some image_object.
Proof. vm_compute. reflexivity. Qed.

Lemma image_row_select : select_row (db with_image) tbl_images 1 = Some image_row.
Proof. vm_compute. reflexivity. Qed.

(** The loss of [tau_time]: [REQUIRED] demands it, the insertion of an
    image does not pass it on, and a reload reads NULL where the creation
    was given 1800. *)
Example image_tau_time_not_stored :
  image_data !! "tau_time" = Some (VNum (1800 # 1))
  ∧ DBObject.__getattr__ 1%nat "tau_time" with_image
    = (Ok (VNum (1800 # 1)), with_image)
  ∧ image_row !! "tau_time" = Some VNone.
Proof. vm_compute. done. Qed.

(** The missing [url]: every name in [REQUIRED] is there, and the creation
    raises KeyError from the getter of [id], with nothing inserted. *)
Example image_without_url :
  forallb (λ key, bool_decide (is_Some (filled_in with_dataset Image
                                          (Some 0%nat) image_data_no_url !! key)))
          (REQUIRED Image) = true
  ∧ fst (Image.new (Some image_data_no_url) (Some 0%nat) None None with_dataset)
    = Raise (KeyError "url")
  ∧ db (snd (Image.new (Some image_data_no_url) (Some 0%nat) None None
               with_dataset))
    = db with_dataset.
Proof. vm_compute. done. Qed.

(** C1, a case where the claim fails. An Image is created from data that
    name dataset 999 and an integration time of 1800, and is given the
    dataset of identity 1; the image is then loaded by its identity.  The
    loaded snapshot has [ds_id] 1 and a NULL [tau_time]: neither is the
    value supplied, though both are columns of the relation. *)
Lemma round_trip_counterexample :
  let created :=
    Image.new (Some foreign_image_data) (Some 0%nat) None None with_dataset in
  let loaded :=
    Image.new None None (Some Connection) (Some 1) (snd created) in
  fst created = Ok 1%nat
  ∧ (heap (snd created) !! 1%nat) ≫= _id = Some 1
  ∧ fst loaded = Ok 2%nat
  ∧ bool_decide ("ds_id" ∈ t_columns (db_images (db (snd loaded)))) = true
  ∧ bool_decide ("tau_time" ∈ t_columns (db_images (db (snd loaded)))) = true
  ∧ (heap (snd loaded) !! 2%nat) ≫= (λ o, _data o !! "ds_id") = Some (VInt 1)
  ∧ foreign_image_data !! "ds_id" = Some (VInt 999)
  ∧ (heap (snd loaded) !! 2%nat) ≫= (λ o, _data o !! "tau_time") = Some VNone
  ∧ foreign_image_data !! "tau_time" = Some (VNum (1800 # 1)).
Proof. vm_compute. done. Qed.

(** C1 on the image of the docstring. *)
Lemma create_then_load_witness :
  ∃ i l2 w2 o2,
    _id <$> heap with_image !! 1%nat = Some (Some i)
    ∧ construct Image None None (Some Connection) (Some i) with_image
      = (Ok l2, w2)
    ∧ db w2 = db with_image
    ∧ heap w2 !! l2 = Some o2 ∧ _id o2 = Some i
    ∧ ∀ k v, image_data !! k = Some v → inserted_from_data Image k →
             k ∈ t_columns (rel (db with_image) (TABLE Image)) → k ≠ ID Image →
             _data o2 !! k = Some v.
Proof.
  apply (create_then_load_round_trip with_dataset Image image_data
           (Some 0%nat) None 1%nat with_image).
  - intros _. vm_compute. reflexivity.
  - vm_compute. reflexivity.
Defined.

(** C2 on the image of the docstring. *)
Lemma update_no_kwargs_witness :
  DBObject.update 1%nat ∅ with_image
  = (Ok tt,
     {| db := db with_image;
        heap := <[1%nat := set_data image_row image_object]> (heap with_image);
        next_loc := next_loc with_image |})
  ∧ ∀ w0 l, db (snd (DBObject.update l ∅ w0)) = db w0.
Proof.
  apply (update_no_kwargs_read_only with_image 1%nat image_object 1
           Connection image_row).
  - exact image_object_lookup.
  - vm_compute. reflexivity.
  - vm_compute. reflexivity.
  - exact image_row_select.
Defined.

(** C3 on the image of the docstring: [image1.update(tau_time=2500)]. *)
Lemma update_tau_time_witness :
  DBObject.update 1%nat {[ "tau_time" := VNum (2500 # 1) ]} with_image
  = (Ok tt,
     {| db := set_columns_for_table (db with_image) (TABLE (class_of image_object))
                {[ "tau_time" := VNum (2500 # 1) ]} (Some 1);
        heap := <[1%nat := set_data ({[ "tau_time" := VNum (2500 # 1) ]} ∪ image_row)
                             image_object]> (heap with_image);
        next_loc := next_loc with_image |})
  ∧ ∀ k v, ({[ "tau_time" := VNum (2500 # 1) ]} : gmap string value) !! k = Some v →
      k ∈ t_columns (rel (db with_image) (TABLE (class_of image_object))) →
      k ≠ id_column (TABLE (class_of image_object)) →
      ∃ row',
        select_row
          (set_columns_for_table (db with_image) (TABLE (class_of image_object))
             {[ "tau_time" := VNum (2500 # 1) ]} (Some 1))
          (TABLE (class_of image_object)) 1 = Some row'
        ∧ row' !! k = Some v.
Proof.
  apply (update_sync_then_apply with_image 1%nat image_object 1
           Connection image_row).
  - exact image_object_lookup.
  - vm_compute. reflexivity.
  - vm_compute. reflexivity.
  - exact image_row_select.
Defined.

(** C4, a case where the claim fails. The image data of the docstring have
    no [ds_id], which [REQUIRED] lists; given the dataset, the creation
    returns all the same and inserts the image. *)
Lemma required_counterexample :
  bool_decide ("ds_id" ∈ REQUIRED Image) = true
  ∧ image_data !! "ds_id" = None
  ∧ Image.new (Some image_data) (Some 0%nat) None None with_dataset
    = (Ok 1%nat, with_image)
  ∧ t_rows (db_images (db with_dataset)) !! 1 = None
  ∧ is_Some (t_rows (db_images (db with_image)) !! 1) .
Proof.
  split; [by vm_compute|]. split; [by vm_compute|].
  split; [exact with_image_run|]. split; [by vm_compute|].
  vm_compute. eauto.
Qed.

(** C4 on the objects of the docstring: an image without [tau_time], a
    source of [image1] that is given no database, and [image1] itself. *)
Lemma create_checks_required_witness :
  (∃ key' w',
     construct Image (Some (delete "tau_time" image_data)) (Some 0%nat)
       None None with_dataset
     = (Raise (AttributeError ("missing required data key: " ++ key')), w')
     ∧ db w' = db with_dataset
     ∧ key' ∈ REQUIRED Image
     ∧ filled_in with_dataset Image (Some 0%nat) (delete "tau_time" image_data)
         !! key' = None)
  ∧ (∃ l w1,
       construct ExtractedSource (Some source_data) (Some 1%nat) None None
         with_image = (Ok l, w1))
  ∧ (∃ o i,
       heap with_image !! 1%nat = Some o ∧ _id o = Some i
       ∧ (∀ key, key ∈ REQUIRED Image → is_Some (_data o !! key))
       ∧ t_rows (rel (db with_dataset) (TABLE Image)) !! i = None
       ∧ ∃ stored, t_rows (rel (db with_image) (TABLE Image))
                   = <[i := stored]> (t_rows (rel (db with_dataset) (TABLE Image)))).
Proof.
  split; [|split].
  - apply (proj1 (create_checks_required with_dataset Image
                    (delete "tau_time" image_data) (Some 0%nat))
             None "tau_time").
    + split; [by vm_compute|]. exists dataset_object.
      split; [by vm_compute|]. split; [by vm_compute|]. vm_compute. eauto.
    + right. exists 0%nat. split; [done|]. vm_compute. eauto.
    + cbn. set_solver.
    + vm_compute. reflexivity.
  - apply (proj1 (proj2 (create_checks_required with_image ExtractedSource
                           source_data (Some 1%nat))) None).
    + split; [by vm_compute|].
      exists image_object, 0%nat, dataset_with_image.
      split; [by vm_compute|]. split; [by vm_compute|].
      split; [vm_compute; eauto|]. split; [by vm_compute|].
      split; [by vm_compute|]. by vm_compute.
    + right. exists 1%nat. split; [done|]. vm_compute. eauto.
    + change (accepts (db with_image) tbl_extractedsources
                (filled_in with_image ExtractedSource (Some 1%nat) source_data)).
      refine (bool_decide_unpack _ _). vm_compute. exact I.
    + intros key Hin. cbn in Hin.
      repeat (apply elem_of_cons in Hin as [->|Hin]; [vm_compute; eauto|]).
      by apply elem_of_nil in Hin.
  - apply (proj2 (proj2 (create_checks_required with_dataset Image image_data
                           (Some 0%nat))) None 1%nat with_image).
    + intros _. vm_compute. reflexivity.
    + exact with_image_run.
Defined.

(** C5, evaluated. [_set_data(bogus=1)] on the dataset of the docstring,
    whose relation has no column of that name: the call returns, the store
    is as it was, and the snapshot has the item, which the row has not. *)
Theorem apply_unknown_attribute :
  let r := DBObject._set_data 0%nat {[ "bogus" := VInt 1 ]} with_dataset in
  bool_decide ("bogus" ∈ t_columns (db_datasets (db with_dataset))) = false
  ∧ fst r = Ok tt
  ∧ db (snd r) = db with_dataset
  ∧ (heap (snd r) !! 0%nat) ≫= (λ o, _data o !! "bogus") = Some (VInt 1)
  ∧ select_row (db (snd r)) tbl_datasets 1 ≫= (.!! "bogus") = None
  ∧ is_Some (select_row (db (snd r)) tbl_datasets 1).
Proof. vm_compute. repeat split; eauto. Qed.

(** C6, a case where the claim fails. The construction of an Image from
    empty data and the dataset of the docstring raises for want of
    [tau_time], after the image has joined the [images] of the dataset.  On
    that image, reached through the dataset, [tau_time] raises the
    unknown-attribute error although [REQUIRED] lists the name. *)
Lemma getattr_counterexample :
  fst (Image.new (Some ∅) (Some 0%nat) None None with_dataset)
  = Raise (AttributeError "missing required data key: tau_time")
  ∧ elements <$> (images <$> heap with_failed_image !! 0%nat) = Some [1%nat]
  ∧ class_of <$> heap with_failed_image !! 1%nat = Some Image
  ∧ bool_decide ("tau_time" ∈ REQUIRED Image) = true
  ∧ DBObject.__getattr__ 1%nat "tau_time" with_failed_image
    = (Raise (AttributeError "attribute 'tau_time' not found"),
       with_failed_image).
Proof. vm_compute. done. Qed.

(** C6 on the image of the docstring. *)
Lemma getattr_witness :
  (∀ v, _data image_object !! "tau_time" = Some v →
        DBObject.__getattr__ 1%nat "tau_time" with_image = (Ok v, with_image))
  ∧ (DBObject.__getattr__ 1%nat "tau_time" with_image
     = (Raise (AttributeError ("attribute '" ++ "tau_time" ++ "' not found")),
        with_image)
     ↔ _data image_object !! "tau_time" = None).
Proof.
  apply (getattr_resolves_in_snapshot with_image 1%nat image_object "tau_time").
  exact image_object_lookup.
Defined.

(** C7, a case where the claim fails. An Image created from data that name
    dataset 999, and given the dataset of identity 1, keeps [ds_id] 999. *)
Lemma image_ds_id_counterexample :
  Image.new (Some foreign_image_data) (Some 0%nat) None None with_dataset
  = (Ok 1%nat, with_foreign_image)
  ∧ DataSet.id 0%nat with_foreign_image = (Ok 1, with_foreign_image)
  ∧ DBObject.__getattr__ 1%nat "ds_id" with_foreign_image
    = (Ok (VInt 999), with_foreign_image).
Proof. vm_compute. done. Qed.

(** C7 on the image of the docstring. *)
Lemma image_ds_id_witness :
  (∃ dso, heap with_image !! 0%nat = Some dso ∧ 1%nat ∈ images dso)
  ∧ ((None : option Z) = None →
     image_data !! "ds_id" = None →
     ∀ j, _id <$> heap with_dataset !! 0%nat = Some (Some j) →
          _id <$> heap with_image !! 0%nat = Some (Some j)
          ∧ DBObject.__getattr__ 1%nat "ds_id" with_image
            = (Ok (VInt j), with_image)).
Proof.
  apply (image_ds_id_of_dataset with_dataset (Some image_data) 0%nat None None
           1%nat with_image).
  exact with_image_run.
Defined.

(** C8, a case where the claim fails. An Image is created fresh without a
    dataset object, from data that have an item [id]: the getter of [id]
    raises AttributeError on the missing dataset, the lookup falls back on
    the item, and the constructor returns.  The object has no identity, no
    row was inserted, and [obj.id] answers 7 at every evaluation without
    ever inserting. *)
Lemma identity_counterexample :
  Image.new (Some image_data_with_id) None (Some Connection) None with_dataset
  = (Ok 1%nat, with_detached_image)
  ∧ _id <$> heap with_detached_image !! 1%nat = Some None
  ∧ DBObject.getattr_id Image.id 1%nat with_detached_image
    = (Ok (VInt 7), with_detached_image)
  ∧ db with_detached_image = db with_dataset
  ∧ select_row (db with_detached_image) tbl_images 7 = None.
Proof. vm_compute. done. Qed.

Lemma unsaved_source_lookup :
  heap with_unsaved_source !! 2%nat = Some unsaved_source.
Proof. vm_compute. reflexivity. Qed.

(** C8 on the image of the docstring, which has its identity, and on a
    source of that image at the point where its constructor evaluates
    [self.id] for the first time. *)
Lemma identity_witness :
  (prop_id 1%nat with_image = (Ok 1, with_image)
   ∧ DBObject.getattr_id prop_id 1%nat with_image = (Ok (VInt 1), with_image))
  ∧ (∀ i w', prop_id 2%nat with_unsaved_source = (Ok i, w') →
       (t_rows (rel (db with_unsaved_source) (TABLE (class_of unsaved_source)))
          !! i = None
        ∧ ∃ row, t_rows (rel (db w') (TABLE (class_of unsaved_source)))
                 = <[i := row]>
                     (t_rows (rel (db with_unsaved_source)
                                (TABLE (class_of unsaved_source)))))
       ∧ heap w' !! 2%nat = Some (set_id (Some i) unsaved_source)
       ∧ prop_id 2%nat w' = (Ok i, w'))
  ∧ (∃ i w', prop_id 2%nat with_unsaved_source = (Ok i, w')
             ∧ one_row_inserted (db with_unsaved_source) (db w')
                 (TABLE (class_of unsaved_source)) i).
Proof.
  split; [|split].
  - apply (proj1 (identity_assigned_once with_image 1%nat image_object
                    image_object_lookup) 1).
    vm_compute. reflexivity.
  - apply (proj1 (proj2 (identity_assigned_once with_unsaved_source 2%nat
                           unsaved_source unsaved_source_lookup))).
    vm_compute. reflexivity.
  - apply (proj2 (proj2 (identity_assigned_once with_unsaved_source 2%nat
                           unsaved_source unsaved_source_lookup))).
    + vm_compute. reflexivity.
    + split; [vm_compute; eauto|].
      change (accepts (db with_unsaved_source) tbl_extractedsources
                (_data unsaved_source)).
      refine (bool_decide_unpack _ _). vm_compute. exact I.
Defined.

(** C9 on the dataset of the docstring, with two catalogue entries. *)
Lemma detect_variables_witness :
  DataSet.detect_variables 0%nat (Some (2 # 10)) (Some (3 # 1)) with_catalog
  = (Ok [variable_entry], with_catalog)
  ∧ DataSet.detect_variables 0%nat None None with_catalog
    = (Ok [variable_entry], with_catalog).
Proof.
  apply (proj2 (detect_variables_query with_catalog 0%nat dataset_object
                  Connection None None
                  ltac:(vm_compute; reflexivity) ltac:(vm_compute; reflexivity))
           variable_entry steady_entry); vm_compute; reflexivity.
Defined.

(** C10 on an image given a dataset that has no database. *)
Lemma construct_without_database_witness :
  ∃ e w',
    construct Image (Some image_data) (Some 0%nat) None None with_orphan
    = (Raise e, w')
    ∧ db w' = db with_orphan
    ∧ (∀ l o, l ≠ next_loc with_orphan → heap with_orphan !! l = Some o →
              ∃ o', heap w' !! l = Some o' ∧ _id o' = _id o)
    ∧ _id <$> heap w' !! next_loc with_orphan = Some None.
Proof.
  apply (construct_without_database with_orphan Image (Some image_data)
           (Some 0%nat) None).
  intros po Hpo. cbn in Hpo. rewrite lookup_singleton_eq in Hpo.
  injection Hpo as <-. split; [reflexivity|]. intros ds dso Hds. discriminate Hds.
Defined.

(** * Further properties *)

Arguments update_images : simpl never.
Arguments update_sources : simpl never.
Arguments match_monitoringlist : simpl never.
Arguments __str__ : simpl never.
Arguments select_ids_where : simpl never.

(** ** Loading by identity *)

Ltac run_constructor :=
  unfold DataSet.new, Image.new, ExtractedSource.new,
    DataSet.__init__, Image.__init__, ExtractedSource.__init__,
    DBObject.__init__, DBObject._init_data, DBObject.update,
    DBObject._sync_with_database, DBObject._set_data;
  unfold bind, ret, raise, get_db, put_db, connection, get, modify, alloc;
  cbn;
  repeat (rewrite lookup_insert_eq; cbn).

(** X1. Loading an object by an identity that no row of the relation has,
    without an owner object, raises IndexError, for each of the three
    classes and whatever data are given; the store and the objects that
    existed are left as they were. *)
Theorem load_unknown_identity w c data conn i :
  select_row (db w) (TABLE c) i = None →
  ∃ w',
    construct c data None (Some conn) (Some i) w = (Raise IndexError, w')
    ∧ db w' = db w
    ∧ ∀ l, l ≠ next_loc w → heap w' !! l = heap w !! l.
Proof.
  intros Hrow.
  assert (columns_from_table (db w) (TABLE c) (Some i) = []) as Hnone
    by (unfold columns_from_table; by rewrite Hrow).
  destruct c; cbn in Hnone |- *.
  all: run_constructor.
  all: rewrite Hnone; cbn.
  all: eexists; split; [reflexivity|]; cbn; split; [done|].
  all: intros l Hl; repeat rewrite lookup_insert_ne by done; done.
Qed.

Lemma load_run_any w c data conn i row :
  select_row (db w) (TABLE c) i = Some row →
  ∃ o,
    construct c data None (Some conn) (Some i) w
    = (Ok (next_loc w),
       {| db := db w; heap := <[next_loc w := o]> (heap w);
          next_loc := S (next_loc w) |})
    ∧ class_of o = c ∧ _id o = Some i ∧ _data o = row
    ∧ database o = Some conn ∧ dataset o = None ∧ image o = None.
Proof.
  intros Hrow.
  destruct c; cbn in Hrow |- *.
  all: run_constructor.
  all: rewrite (columns_from_table_Some _ _ _ _ Hrow); cbn.
  all: repeat (rewrite lookup_insert_eq; cbn).
  all: repeat rewrite insert_insert_eq.
  all: eexists; split; [reflexivity|]; done.
Qed.

(** X2. When an identity is given the data are ignored: the object that
    the constructor returns has that identity and the row as its snapshot,
    whatever data were passed along, and the store is left as it was. *)
Theorem load_ignores_data w c data conn i row :
  select_row (db w) (TABLE c) i = Some row →
  ∃ l w' o,
    construct c data None (Some conn) (Some i) w = (Ok l, w')
    ∧ db w' = db w
    ∧ heap w' !! l = Some o
    ∧ _id o = Some i ∧ _data o = row.
Proof.
  intros Hrow.
  destruct (load_run_any w c data conn i row Hrow)
    as (o & Hrun & _ & Hi & Hd & _).
  eexists _, _, o. split; [exact Hrun|]. cbn.
  by rewrite lookup_insert_eq.
Qed.

(** ** How updates compose *)

Lemma update_run w self o i c row kwargs :
  heap w !! self = Some o → _id o = Some i → database o = Some c →
  select_row (db w) (TABLE (class_of o)) i = Some row →
  DBObject.update self kwargs w
  = (Ok tt,
     {| db := set_columns_for_table (db w) (TABLE (class_of o)) kwargs (Some i);
        heap := <[self := set_data (kwargs ∪ row) o]> (heap w);
        next_loc := next_loc w |}).
Proof.
  intros Hl Hi Hc Hrow. unfold DBObject.update, bind.
  rewrite (sync_run _ _ _ _ _ _ Hl Hi Hc Hrow).
  destruct (decide (size kwargs = 0%nat)) as [Hz|Hnz].
  - apply map_size_empty_inv in Hz. subst kwargs.
    rewrite set_columns_empty, (left_id_L ∅ (∪)).
    unfold DBObject._set_data. cbn. done.
  - erewrite set_data_run; cbn; [| apply lookup_insert_eq | exact Hc | exact Hnz].
    rewrite insert_insert_eq. cbn. by rewrite Hi.
Qed.

Lemma set_rel_set_rel d t r r' : set_rel (set_rel d t r) t r' = set_rel d t r'.
Proof. by destruct t. Qed.

Lemma known_lookup_None r (kwargs : gmap string value) k :
  kwargs !! k = None → known r kwargs !! k = None.
Proof. intros H. unfold known. apply map_lookup_filter_None. by left. Qed.

Lemma known_lookup_unknown r (kwargs : gmap string value) k :
  k ∉ t_columns r → known r kwargs !! k = None.
Proof.
  intros H. unfold known. apply map_lookup_filter_None. right.
  intros v _ Hin. done.
Qed.

(** The row after a write, read back: the supplied values of the data
    columns laid over what was stored. *)
Lemma select_row_after_write d t kwargs i row :
  select_row d t i = Some row →
  ∃ stored,
    row = <[id_column t := VInt i]> stored
    ∧ select_row (set_columns_for_table d t kwargs (Some i)) t i
      = Some (<[id_column t := VInt i]> (known (rel d t) kwargs ∪ stored)).
Proof.
  intros (stored & Hs & ->)%select_row_Some. exists stored. split; [done|].
  unfold set_columns_for_table, select_row. rewrite rel_set_rel. cbn.
  rewrite lookup_alter_eq. by rewrite Hs.
Qed.

Lemma written_row_lookup r (kwargs stored : gmap string value) idc (i : Z) k :
  (<[idc := VInt i]> (known r kwargs ∪ stored)) !! k
  = if decide (idc = k) then Some (VInt i)
    else match kwargs !! k with
         | Some v => if decide (k ∈ t_columns r) then Some v else stored !! k
         | None => stored !! k
         end.
Proof.
  rewrite lookup_insert. case_decide; [done|].
  destruct (kwargs !! k) as [v|] eqn:Hk.
  - case_decide as Hcol.
    + apply lookup_union_Some_l. unfold known.
      apply map_lookup_filter_Some. done.
    + rewrite lookup_union_r; [done|]. by apply known_lookup_unknown.
  - rewrite lookup_union_r; [done|]. by apply known_lookup_None.
Qed.

Lemma set_columns_twice d t kwargs i :
  set_columns_for_table (set_columns_for_table d t kwargs (Some i)) t kwargs (Some i)
  = set_columns_for_table d t kwargs (Some i).
Proof.
  unfold set_columns_for_table. rewrite rel_set_rel. cbn.
  rewrite set_rel_set_rel. f_equal. f_equal.
  rewrite alter_alter_eq. apply alter_ext. intros row _. cbn.
  by rewrite (assoc_L (∪)), (idemp_L (∪)).
Qed.

(** X3. [update] is idempotent: a second [update] with the same keyword
    arguments returns and leaves store and snapshot exactly as the first
    left them. *)
Theorem update_idempotent w self o i c row kwargs :
  heap w !! self = Some o → _id o = Some i → database o = Some c →
  select_row (db w) (TABLE (class_of o)) i = Some row →
  ∃ w1,
    DBObject.update self kwargs w = (Ok tt, w1)
    ∧ DBObject.update self kwargs w1 = (Ok tt, w1).
Proof.
  intros Hl Hi Hc Hrow. eexists. split; [by eapply update_run|].
  destruct (select_row_after_write _ _ kwargs _ _ Hrow) as (stored & -> & Hsel).
  erewrite update_run; cbn; [| apply lookup_insert_eq | exact Hi | exact Hc | exact Hsel].
  rewrite set_columns_twice, insert_insert_eq. cbn.
  match goal with
  | |- context [kwargs ∪ ?r'] =>
      lazymatch r' with
      | context [known] =>
          replace (kwargs ∪ r')
            with (kwargs ∪ <[id_column (TABLE (class_of o)) := VInt i]> stored)
      end
  end; [done|].
  apply map_eq. intros k.
  destruct (kwargs !! k) as [v|] eqn:Hk.
  - by rewrite !(lookup_union_Some_l _ _ _ v).
  - rewrite !lookup_union_r by done.
    rewrite written_row_lookup, lookup_insert, Hk. by case_decide.
Qed.

(** X4. What [update(kwargs)] wrote is what the next [update()] reads:
    after the two calls the snapshot is the row of the store; it holds the
    supplied value under every name that is a data column, and under every
    other name what the row held before the calls, so that an item
    supplied under a name that is no column is gone from the snapshot. *)
Theorem update_then_refresh w self o i c row kwargs :
  heap w !! self = Some o → _id o = Some i → database o = Some c →
  select_row (db w) (TABLE (class_of o)) i = Some row →
  ∃ w1 w2 row',
    DBObject.update self kwargs w = (Ok tt, w1)
    ∧ DBObject.update self ∅ w1 = (Ok tt, w2)
    ∧ db w2 = db w1
    ∧ _data <$> heap w2 !! self = Some row'
    ∧ select_row (db w2) (TABLE (class_of o)) i = Some row'
    ∧ (∀ k v, kwargs !! k = Some v →
              k ∈ t_columns (rel (db w) (TABLE (class_of o))) →
              k ≠ id_column (TABLE (class_of o)) → row' !! k = Some v)
    ∧ (∀ k, k ∉ t_columns (rel (db w) (TABLE (class_of o))) →
            row' !! k = row !! k).
Proof.
  intros Hl Hi Hc Hrow.
  destruct (select_row_after_write _ _ kwargs _ _ Hrow) as (stored & -> & Hsel).
  eexists _, _, _. split; [by eapply update_run|].
  split.
  { erewrite update_run; cbn;
      [reflexivity | apply lookup_insert_eq | exact Hi | exact Hc | exact Hsel]. }
  cbn. rewrite set_columns_empty. split; [done|].
  rewrite lookup_insert_eq. cbn. rewrite (left_id_L ∅ (∪)).
  split; [done|]. split; [exact Hsel|]. split.
  - intros k v Hk Hcol Hne. rewrite written_row_lookup, Hk.
    rewrite decide_False by done. by rewrite decide_True.
  - intros k Hcol. rewrite written_row_lookup, lookup_insert.
    destruct (decide _); [done|].
    destruct (kwargs !! k); [|done]. by rewrite decide_False.
Qed.

(** X5. A second handle on the same row goes stale and is refreshed only
    by its own [update()]: [update(kwargs)] through one object leaves the
    snapshot of the other as it was, and the other's next [update()]
    replaces it by the row, with the values written through the first. *)
Theorem stale_until_update w a b oa ob i ca cb row kwargs :
  a ≠ b →
  heap w !! a = Some oa → heap w !! b = Some ob →
  class_of ob = class_of oa → _id oa = Some i → _id ob = Some i →
  database oa = Some ca → database ob = Some cb →
  select_row (db w) (TABLE (class_of oa)) i = Some row →
  ∃ w1 w2 row',
    DBObject.update a kwargs w = (Ok tt, w1)
    ∧ heap w1 !! b = Some ob
    ∧ DBObject.update b ∅ w1 = (Ok tt, w2)
    ∧ _data <$> heap w2 !! b = Some row'
    ∧ select_row (db w2) (TABLE (class_of oa)) i = Some row'
    ∧ ∀ k v, kwargs !! k = Some v →
             k ∈ t_columns (rel (db w) (TABLE (class_of oa))) →
             k ≠ id_column (TABLE (class_of oa)) → row' !! k = Some v.
Proof.
  intros Hab Ha Hb Hcls Hia Hib Hca Hcb Hrow.
  destruct (select_row_after_write _ _ kwargs _ _ Hrow) as (stored & -> & Hsel).
  eexists _, _, _. split; [by eapply update_run|]. cbn.
  split; [by rewrite lookup_insert_ne|].
  split.
  { erewrite (update_run _ b ob i cb _ ∅); cbn;
      [reflexivity | by rewrite lookup_insert_ne | exact Hib | exact Hcb
      | rewrite Hcls; exact Hsel]. }
  cbn. rewrite set_columns_empty.
  rewrite lookup_insert_eq. cbn. rewrite (left_id_L ∅ (∪)).
  split; [done|]. split; [exact Hsel|].
  intros k v Hk Hcol Hne. rewrite written_row_lookup, Hk.
  rewrite decide_False by done. by rewrite decide_True.
Qed.

(** ** Reloading the members *)

Lemma select_ids_where_spec d t column i id :
  id ∈ select_ids_where d t column (Some i)
  ↔ ∃ stored, t_rows (rel d t) !! id = Some stored
              ∧ stored !! column = Some (VInt i).
Proof.
  unfold select_ids_where. rewrite list_elem_of_fmap. split.
  - intros ([id' stored] & -> & Hin). cbn.
    apply elem_of_map_to_list, map_lookup_filter_Some in Hin as [Hs Hc].
    eauto.
  - intros (stored & Hs & Hc). exists (id, stored). split; [done|].
    apply elem_of_map_to_list, map_lookup_filter_Some. done.
Qed.

Lemma select_ids_where_NoDup d t column v :
  NoDup (select_ids_where d t column v).
Proof.
  unfold select_ids_where. destruct v; [|constructor].
  apply NoDup_fst_map_to_list.
Qed.

(** A row that the statement finds, as the constructor reads it. *)
Lemma select_ids_where_row d t column i id :
  column ≠ id_column t →
  id ∈ select_ids_where d t column (Some i) ↔
  ∃ row, select_row d t id = Some row ∧ row !! column = Some (VInt i).
Proof.
  intros Hne. rewrite select_ids_where_spec. split.
  - intros (stored & Hs & Hc). eexists. split.
    + apply select_row_Some. eauto.
    + by rewrite lookup_insert_ne.
  - intros (row & (stored & Hs & ->)%select_row_Some & Hc).
    rewrite lookup_insert_ne in Hc by done. eauto.
Qed.

(** The loop, on identities that all have a row: it allocates one object
    per identity at consecutive locations, and touches nothing else. *)
Lemma load_members_run c self ids :
  ∀ w acc o conn,
    heap w !! self = Some o → database o = Some conn →
    (self < next_loc w)%nat →
    (∀ id, id ∈ ids → is_Some (select_row (db w) (TABLE c) id)) →
    ∃ w',
      load_members c self ids acc w
      = (Ok (list_to_set (seq (next_loc w) (length ids)) ∪ acc), w')
      ∧ db w' = db w
      ∧ next_loc w' = (next_loc w + length ids)%nat
      ∧ (∀ l, (l < next_loc w)%nat → heap w' !! l = heap w !! l)
      ∧ ∀ k id, ids !! k = Some id →
          ∃ m, heap w' !! (next_loc w + k)%nat = Some m
               ∧ class_of m = c ∧ _id m = Some id
               ∧ select_row (db w) (TABLE c) id = Some (_data m)
               ∧ database m = Some conn
               ∧ dataset m = None ∧ image m = None.
Proof.
  induction ids as [|id ids IH]; intros w acc o conn Hl Hc Hlt Hrows.
  - exists w. cbn. rewrite Nat.add_0_r, (left_id_L ∅ (∪)).
    repeat split; done.
  - destruct (Hrows id) as [row Hrow]; [by left|].
    destruct (load_run_any w c None conn id row Hrow)
      as (m & Hrun & Hmc & Hmi & Hmd & Hmdb & Hmds & Hmim).
    cbn [load_members]. unfold bind at 1. rewrite (get_run _ _ _ Hl).
    unfold bind at 1. rewrite Hc, Hrun.
    set (w1 := {| db := db w; heap := <[next_loc w := m]> (heap w);
                  next_loc := S (next_loc w) |}).
    assert (heap w1 !! self = Some o) as Hl1
      by (cbn; rewrite lookup_insert_ne by lia; exact Hl).
    assert (self < next_loc w1)%nat as Hlt1 by (cbn; lia).
    assert (∀ id', id' ∈ ids → is_Some (select_row (db w1) (TABLE c) id'))
      as Hrows1 by (intros id' Hin; apply Hrows; by right).
    destruct (IH w1 ({[next_loc w]} ∪ acc) o conn Hl1 Hc Hlt1 Hrows1)
      as (w' & Hrun' & Hdb & Hnext & Hframe & Hmem).
    exists w'. rewrite Hrun'. cbn in *. split.
    { do 2 f_equal.
      rewrite (assoc_L (∪)). f_equal. apply (comm_L (∪)). }
    split; [done|]. split; [lia|]. split.
    { intros l Hll. rewrite Hframe by lia.
      rewrite lookup_insert_ne by lia. done. }
    intros [|k] id' Hk; cbn in Hk.
    + injection Hk as <-. exists m. rewrite Nat.add_0_r.
      rewrite Hframe by lia. rewrite lookup_insert_eq.
      rewrite Hmd. done.
    + destruct (Hmem k id' Hk) as (m' & Hm' & Hrest). exists m'.
      rewrite Nat.add_succ_r. done.
Qed.

(** X6. [update_images] is a full reload, not a merge: it leaves the store
    as it was, loads one new Image per row of the relation of images whose
    [ds_id] is the identity of the dataset, each once and with that row as
    its snapshot and without a [dataset], and makes exactly these new
    objects the [images] of the dataset; the objects that were there stay
    as they were and are no longer in the set. *)
Theorem update_images_reloads w self o conn i :
  heap w !! self = Some o → _id o = Some i → database o = Some conn →
  (self < next_loc w)%nat →
  ∃ ids w',
    update_images self w = (Ok tt, w')
    ∧ db w' = db w
    ∧ NoDup ids
    ∧ (∀ id, id ∈ ids ↔
             ∃ row, select_row (db w) tbl_images id = Some row
                    ∧ row !! "ds_id" = Some (VInt i))
    ∧ heap w' !! self
      = Some (set_images (list_to_set (seq (next_loc w) (length ids))) o)
    ∧ (∀ l, (l < next_loc w)%nat → l ≠ self → heap w' !! l = heap w !! l)
    ∧ ∀ k id, ids !! k = Some id →
        ∃ m, heap w' !! (next_loc w + k)%nat = Some m
             ∧ class_of m = Image ∧ _id m = Some id
             ∧ select_row (db w) tbl_images id = Some (_data m)
             ∧ dataset m = None.
Proof.
  intros Hl Hi Hc Hlt.
  set (ids := select_ids_where (db w) tbl_images "ds_id" (Some i)).
  destruct (load_members_run Image self ids w ∅ o conn Hl Hc Hlt)
    as (w1 & Hrun & Hdb & Hnext & Hframe & Hmem).
  { intros id Hin. apply select_ids_where_row in Hin as (row & Hrow & _); eauto. }
  exists ids. unfold update_images. mstep. fold ids. rewrite Hrun.
  unfold modify. rewrite Hframe, Hl by done. eexists. split; [reflexivity|].
  cbn. split; [done|]. split; [apply select_ids_where_NoDup|].
  split; [intros id; by apply select_ids_where_row|].
  rewrite lookup_insert_eq, (right_id_L ∅ (∪)). split; [done|]. split.
  - intros l Hll Hne. rewrite lookup_insert_ne by done. by apply Hframe.
  - intros k id Hk. destruct (Hmem k id Hk) as (m & Hm & ? & ? & ? & _ & ? & _).
    exists m. rewrite lookup_insert_ne by lia. done.
Qed.

(** X7. [update_sources] is a full reload as well: it leaves the store as
    it was, loads one new ExtractedSource per row of the relation of
    extracted sources whose [image_id] is the identity of the image, each
    once and with that row as its snapshot and without an [image], and
    makes exactly these new objects the [sources] of the image. *)
Theorem update_sources_reloads w self o conn i :
  heap w !! self = Some o → _id o = Some i → database o = Some conn →
  (self < next_loc w)%nat →
  ∃ ids w',
    update_sources self w = (Ok tt, w')
    ∧ db w' = db w
    ∧ NoDup ids
    ∧ (∀ id, id ∈ ids ↔
             ∃ row, select_row (db w) tbl_extractedsources id = Some row
                    ∧ row !! "image_id" = Some (VInt i))
    ∧ heap w' !! self
      = Some (set_sources (list_to_set (seq (next_loc w) (length ids))) o)
    ∧ (∀ l, (l < next_loc w)%nat → l ≠ self → heap w' !! l = heap w !! l)
    ∧ ∀ k id, ids !! k = Some id →
        ∃ m, heap w' !! (next_loc w + k)%nat = Some m
             ∧ class_of m = ExtractedSource ∧ _id m = Some id
             ∧ select_row (db w) tbl_extractedsources id = Some (_data m)
             ∧ image m = None.
Proof.
  intros Hl Hi Hc Hlt.
  set (ids := select_ids_where (db w) tbl_extractedsources "image_id" (Some i)).
  destruct (load_members_run ExtractedSource self ids w ∅ o conn Hl Hc Hlt)
    as (w1 & Hrun & Hdb & Hnext & Hframe & Hmem).
  { intros id Hin. apply select_ids_where_row in Hin as (row & Hrow & _); eauto. }
  exists ids. unfold update_sources. mstep. fold ids. rewrite Hrun.
  unfold modify. rewrite Hframe, Hl by done. eexists. split; [reflexivity|].
  cbn. split; [done|]. split; [apply select_ids_where_NoDup|].
  split; [intros id; by apply select_ids_where_row|].
  rewrite lookup_insert_eq, (right_id_L ∅ (∪)). split; [done|]. split.
  - intros l Hll Hne. rewrite lookup_insert_ne by done. by apply Hframe.
  - intros k id Hk. destruct (Hmem k id Hk) as (m & Hm & ? & ? & ? & _ & _ & ?).
    exists m. rewrite lookup_insert_ne by lia. done.
Qed.

(** ** Matching against the monitoring list *)

Lemma match_monitoringlist_no_dataset helper w self o conn flag assoc_r mindistance :
  heap w !! self = Some o → database o = Some conn → dataset o = None →
  match_monitoringlist helper self flag assoc_r mindistance w
  = (Raise (AttributeError "'NoneType' object has no attribute 'id'"), w).
Proof. intros Hl Hc Hd. unfold match_monitoringlist. by mstep. Qed.

(** X8. An Image loaded by its identity has no dataset object, and
    [match_monitoringlist], which asks the dataset object for its
    identity, raises AttributeError on it before anything is done to the
    store, whatever the helper of [tkp.database.utils] would do. *)
Theorem match_monitoringlist_needs_dataset
    helper w data conn i row flag assoc_r mindistance :
  select_row (db w) tbl_images i = Some row →
  ∃ l w1,
    Image.new data None (Some conn) (Some i) w = (Ok l, w1)
    ∧ match_monitoringlist helper l flag assoc_r mindistance w1
      = (Raise (AttributeError "'NoneType' object has no attribute 'id'"), w1).
Proof.
  intros Hrow.
  destruct (load_run_any w Image data conn i row Hrow)
    as (o & Hrun & _ & _ & _ & Hdb & Hds & _).
  cbn in Hrun. eexists _, _. split; [exact Hrun|].
  eapply match_monitoringlist_no_dataset; cbn; eauto.
  by rewrite lookup_insert_eq.
Qed.

(** ** Printing a dataset *)

(** X9. [str] of a dataset raises AttributeError: [__str__] reads
    [self.name] and [self._dsid], which no method sets, so both are looked
    for in the snapshot; a DataSet created from data without an item
    [name], or without an item [_dsid], cannot be printed. *)
Theorem str_of_created_dataset str w data database_ l w1 :
  DataSet.new (Some data) database_ None w = (Ok l, w1) →
  (data !! "name" = None →
   __str__ str l w1 = (Raise (AttributeError "attribute 'name' not found"), w1))
  ∧ (is_Some (data !! "name") → data !! "_dsid" = None →
     __str__ str l w1 = (Raise (AttributeError "attribute '_dsid' not found"), w1)).
Proof.
  intros H. unfold_methods H. unfold_prims H.
  repeat inv_step H.
  all: simplify_eq.
  all: unfold __str__, DBObject.__getattr__, bind, get, ret, raise; cbn.
  all: rewrite !lookup_insert_eq; cbn.
  all: split; [by intros ->|].
  all: intros [? Hname] Hdsid; rewrite Hname; cbn.
  all: rewrite lookup_insert_eq; cbn; by rewrite Hdsid.
Qed.

(** ** The object that a creation leaves *)




(** ** Extracted sources and their image *)

(** X11. An ExtractedSource whose constructor returns, having been given
    an image, is in the [sources] of that image; and when it was created
    fresh from data without an [image_id] item and an image that has its
    identity, its [image_id] is the identity of the image. *)
Theorem source_image_id_of_image w data im database_ id_ l w' :
  ExtractedSource.new data (Some im) database_ id_ w = (Ok l, w') →
  (∃ imo, heap w' !! im = Some imo ∧ l ∈ sources imo)
  ∧ (id_ = None →
     match data with Some d => d !! "image_id" | None => None end = None →
     ∀ j, _id <$> heap w !! im = Some (Some j) →
          _id <$> heap w' !! im = Some (Some j)
          ∧ DBObject.__getattr__ l "image_id" w' = (Ok (VInt j), w')).
Proof.
  intros H. unfold_methods H. unfold_prims H.
  repeat inv_step H.
  all: simplify_eq; cbn.
  all: split;
    [ eexists; split;
        [ by simplify_map_eq
        | cbn; apply elem_of_union_l, elem_of_singleton; done ] | ].
  all: intros ? Hd j Hj; simplify_eq.
  all: unfold DBObject.__getattr__, bind, get, ret, raise; cbn.
  all: rewrite lookup_insert_eq; cbn.
  all: unfold setdefault; rewrite Hd, lookup_insert_eq.
  all: split; [|done].
  all: rewrite lookup_insert_ne by done; rewrite lookup_insert_eq; cbn.
  all: congruence.
Qed.

(** X12. An ExtractedSource cannot be given an image that has no dataset
    object, as every Image loaded by its identity is: the constructor asks
    the dataset of the image for its database and raises AttributeError,
    also when a database is passed along; the store is left as it was and
    the image does not see the new object. *)
Theorem source_needs_dataset_of_image w data im imo database_ id_ :
  heap w !! im = Some imo → class_of imo = Image → dataset imo = None →
  im ≠ next_loc w →
  ∃ w',
    ExtractedSource.new data (Some im) database_ id_ w
    = (Raise (AttributeError "'NoneType' object has no attribute 'database'"), w')
    ∧ db w' = db w
    ∧ heap w' !! im = Some imo.
Proof.
  intros Him Hcls Hds Hne.
  unfold ExtractedSource.new, ExtractedSource.__init__,
    ExtractedSource.adopt_image, DBObject.__init__, expect.
  unfold bind, ret, raise, get, modify, alloc; cbn.
  repeat (first [ rewrite insert_insert_eq | rewrite lookup_insert_eq
                | rewrite lookup_insert_ne by done | rewrite Him
                | rewrite Hcls | rewrite Hds
                | rewrite decide_True by done ]; cbn).
  eexists. split; [reflexivity|]. cbn. split; [done|].
  by rewrite lookup_insert_ne.
Qed.

(** ** Updating what has no row *)

(** X15. [update] on an object that has no row in the store, because it
    has no identity or because none of the rows has its identity, raises
    IndexError whatever the keyword arguments; nothing is written and the
    snapshot stays. *)
Theorem update_without_row w self o conn kwargs :
  heap w !! self = Some o → database o = Some conn →
  (∀ i, _id o = Some i → select_row (db w) (TABLE (class_of o)) i = None) →
  DBObject.update self kwargs w = (Raise IndexError, w).
Proof.
  intros Hl Hc Hrow.
  unfold DBObject.update, DBObject._sync_with_database. mstep.
  unfold columns_from_table.
  destruct (_id o) as [i|]; [|done]. by rewrite (Hrow i).
Qed.

(** ** An image without a dataset object *)

(** X16. A fresh Image that is given no dataset object is never stored,
    whatever data and database it is given: the constructor leaves the
    store as it was.  It raises, unless the data have an item named [id]:
    then the lookup of [self.id], whose getter has raised AttributeError
    on the missing dataset, finds that item, and the constructor returns
    an object that has no identity. *)
Theorem image_without_dataset_not_stored w data database_ :
  ∃ r w',
    Image.new data None database_ None w = (r, w')
    ∧ db w' = db w
    ∧ ∀ l, r = Ok l →
        is_Some (match data with Some d => d !! "id" | None => None end)
        ∧ _id <$> heap w' !! l = Some None.
Proof.
  destruct (Image.new data None database_ None w) as [r w'] eqn:H.
  exists r, w'. split; [done|].
  unfold_methods H. unfold_prims H.
  repeat inv_step H.
  all: simplify_eq; cbn.
  all: split; [done|].
  all: intros l [=]; subst.
  all: rewrite lookup_insert_eq; cbn; eauto.
Qed.

(** ** The database of the owner *)

(** X13. A creation that is given no database takes the one of the owner:
    of the dataset for an Image, of the dataset of the image for an
    ExtractedSource.  It returns, given a ready owner, data that, once
    filled in, have every required name, and an insertion that can be
    carried out: the [url] is there for an Image, the engine accepts the
    INSERT of the filled-in data for an ExtractedSource. *)
Theorem create_adopts_database w c data p conn :
  owner_ready w c (Some p) → insert_ready w c (Some p) data →
  (∀ key, key ∈ REQUIRED c → is_Some (filled_in w c (Some p) data !! key)) →
  database_via w c p = Some conn →
  ∃ l w1 o,
    construct c (Some data) (Some p) None None w = (Ok l, w1)
    ∧ heap w1 !! l = Some o ∧ database o = Some conn.
Proof.
  intros Hready Hins Hall Hvia.
  assert (database_reachable w c (Some p) None) as Hreach.
  { right. exists p. split; [done|]. by rewrite Hvia. }
  destruct (create_succeeds w c data (Some p) None Hready Hreach Hins Hall)
    as (l & w1 & o & Hrun & Hl & [conn' Hdb]).
  exists l, w1, o. split; [done|]. split; [done|].
  by destruct conn, conn'.
Qed.

(** ** A creation that fails *)



(** ** One creation after another *)


(** * The further properties on the objects of the docstring *)

Lemma with_source_run :
  ExtractedSource.new (Some source_data) (Some 1%nat) None None with_image
  = (Ok 2%nat, with_source).
Proof. vm_compute. reflexivity. Qed.

Lemma with_loaded_image_run :
  Image.new None None (Some Connection) (Some 1) with_image
  = (Ok 2%nat, with_loaded_image).
Proof. vm_compute. reflexivity. Qed.

Lemma dataset_with_image_lookup :
  heap with_image !! 0%nat = Some dataset_with_image.
Proof. vm_compute. reflexivity. Qed.

Lemma image_with_source_lookup :
  heap with_source !! 1%nat = Some image_with_source.
Proof. vm_compute. reflexivity. Qed.

Lemma loaded_image_lookup :
  heap with_loaded_image !! 2%nat = Some loaded_image_object.
Proof. vm_compute. reflexivity. Qed.

Lemma failed_image_lookup :
  heap with_failed_image !! 1%nat = Some failed_image_object.
Proof. vm_compute. reflexivity. Qed.

(** X1 on the store of the docstring, which has no image 7. *)
Lemma load_unknown_identity_witness :
  ∃ w',
    construct Image (Some image_data) None (Some Connection) (Some 7) with_image
    = (Raise IndexError, w')
    ∧ db w' = db with_image
    ∧ ∀ l, l ≠ next_loc with_image → heap w' !! l = heap with_image !! l.
Proof.
  apply (load_unknown_identity with_image Image (Some image_data) Connection 7).
  vm_compute. reflexivity.
Defined.

(** X2: [Image(data={... 'ds_id': 999 ...}, database=database, id=1)]. *)
Lemma load_ignores_data_witness :
  ∃ l w' o,
    construct Image (Some foreign_image_data) None (Some Connection) (Some 1)
      with_image = (Ok l, w')
    ∧ db w' = db with_image
    ∧ heap w' !! l = Some o
    ∧ _id o = Some 1 ∧ _data o = image_row.
Proof.
  apply (load_ignores_data with_image Image (Some foreign_image_data)
           Connection 1 image_row).
  exact image_row_select.
Defined.

(** X3: [image1.update(tau_time=2500, bogus=1)], twice. *)
Lemma update_idempotent_witness :
  ∃ w1,
    DBObject.update 1%nat update_kwargs with_image = (Ok tt, w1)
    ∧ DBObject.update 1%nat update_kwargs w1 = (Ok tt, w1).
Proof.
  apply (update_idempotent with_image 1%nat image_object 1 Connection image_row).
  - exact image_object_lookup.
  - vm_compute. reflexivity.
  - vm_compute. reflexivity.
  - exact image_row_select.
Defined.

(** X4: [image1.update(tau_time=2500, bogus=1)], then [image1.update()]. *)
Lemma update_then_refresh_witness :
  ∃ w1 w2 row',
    DBObject.update 1%nat update_kwargs with_image = (Ok tt, w1)
    ∧ DBObject.update 1%nat ∅ w1 = (Ok tt, w2)
    ∧ db w2 = db w1
    ∧ _data <$> heap w2 !! 1%nat = Some row'
    ∧ select_row (db w2) (TABLE (class_of image_object)) 1 = Some row'
    ∧ (∀ k v, update_kwargs !! k = Some v →
              k ∈ t_columns (rel (db with_image) (TABLE (class_of image_object))) →
              k ≠ id_column (TABLE (class_of image_object)) → row' !! k = Some v)
    ∧ (∀ k, k ∉ t_columns (rel (db with_image) (TABLE (class_of image_object))) →
            row' !! k = image_row !! k).
Proof.
  apply (update_then_refresh with_image 1%nat image_object 1 Connection image_row).
  - exact image_object_lookup.
  - vm_compute. reflexivity.
  - vm_compute. reflexivity.
  - exact image_row_select.
Defined.

(** X5: [image1] and a second handle [Image(database=database, id=1)]. *)
Lemma stale_until_update_witness :
  ∃ w1 w2 row',
    DBObject.update 1%nat update_kwargs with_loaded_image = (Ok tt, w1)
    ∧ heap w1 !! 2%nat = Some loaded_image_object
    ∧ DBObject.update 2%nat ∅ w1 = (Ok tt, w2)
    ∧ _data <$> heap w2 !! 2%nat = Some row'
    ∧ select_row (db w2) (TABLE (class_of image_object)) 1 = Some row'
    ∧ ∀ k v, update_kwargs !! k = Some v →
             k ∈ t_columns (rel (db with_loaded_image) (TABLE (class_of image_object))) →
             k ≠ id_column (TABLE (class_of image_object)) → row' !! k = Some v.
Proof.
  apply (stale_until_update with_loaded_image 1%nat 2%nat image_object
           loaded_image_object 1 Connection Connection image_row).
  - done.
  - vm_compute. reflexivity.
  - exact loaded_image_lookup.
  - vm_compute. reflexivity.
  - vm_compute. reflexivity.
  - vm_compute. reflexivity.
  - vm_compute. reflexivity.
  - vm_compute. reflexivity.
  - vm_compute. reflexivity.
Defined.

(** X6: [dataset.update_images()] after [image1] was created. *)
Lemma update_images_witness :
  ∃ ids w',
    update_images 0%nat with_image = (Ok tt, w')
    ∧ db w' = db with_image
    ∧ NoDup ids
    ∧ (∀ id, id ∈ ids ↔
             ∃ row, select_row (db with_image) tbl_images id = Some row
                    ∧ row !! "ds_id" = Some (VInt 1))
    ∧ heap w' !! 0%nat
      = Some (set_images (list_to_set (seq (next_loc with_image) (length ids)))
                dataset_with_image)
    ∧ (∀ l, (l < next_loc with_image)%nat → l ≠ 0%nat →
            heap w' !! l = heap with_image !! l)
    ∧ ∀ k id, ids !! k = Some id →
        ∃ m, heap w' !! (next_loc with_image + k)%nat = Some m
             ∧ class_of m = Image ∧ _id m = Some id
             ∧ select_row (db with_image) tbl_images id = Some (_data m)
             ∧ dataset m = None.
Proof.
  apply (update_images_reloads with_image 0%nat dataset_with_image Connection 1).
  - exact dataset_with_image_lookup.
  - vm_compute. reflexivity.
  - vm_compute. reflexivity.
  - vm_compute. lia.
Defined.

(** X7: [image1.update_sources()] after a source was created. *)
Lemma update_sources_witness :
  ∃ ids w',
    update_sources 1%nat with_source = (Ok tt, w')
    ∧ db w' = db with_source
    ∧ NoDup ids
    ∧ (∀ id, id ∈ ids ↔
             ∃ row, select_row (db with_source) tbl_extractedsources id = Some row
                    ∧ row !! "image_id" = Some (VInt 1))
    ∧ heap w' !! 1%nat
      = Some (set_sources (list_to_set (seq (next_loc with_source) (length ids)))
                image_with_source)
    ∧ (∀ l, (l < next_loc with_source)%nat → l ≠ 1%nat →
            heap w' !! l = heap with_source !! l)
    ∧ ∀ k id, ids !! k = Some id →
        ∃ m, heap w' !! (next_loc with_source + k)%nat = Some m
             ∧ class_of m = ExtractedSource ∧ _id m = Some id
             ∧ select_row (db with_source) tbl_extractedsources id = Some (_data m)
             ∧ image m = None.
Proof.
  apply (update_sources_reloads with_source 1%nat image_with_source Connection 1).
  - exact image_with_source_lookup.
  - vm_compute. reflexivity.
  - vm_compute. reflexivity.
  - vm_compute. lia.
Defined.

(** X8: [Image(database=database, id=1).match_monitoringlist()]. *)
Lemma match_monitoringlist_witness :
  ∃ l w1,
    Image.new None None (Some Connection) (Some 1) with_image = (Ok l, w1)
    ∧ match_monitoringlist no_match l true (1 # 1) (30 # 1) w1
      = (Raise (AttributeError "'NoneType' object has no attribute 'id'"), w1).
Proof.
  apply (match_monitoringlist_needs_dataset no_match with_image None
           Connection 1 image_row true (1 # 1) (30 # 1)).
  exact image_row_select.
Defined.

(** X9: [str(dataset)] on the dataset of the docstring. *)
Lemma str_of_dataset_witness :
  (dataset_data !! "name" = None →
   __str__ str_of_value 0%nat with_dataset
   = (Raise (AttributeError "attribute 'name' not found"), with_dataset))
  ∧ (is_Some (dataset_data !! "name") → dataset_data !! "_dsid" = None →
     __str__ str_of_value 0%nat with_dataset
     = (Raise (AttributeError "attribute '_dsid' not found"), with_dataset)).
Proof.
  apply (str_of_created_dataset str_of_value empty_world dataset_data
           (Some Connection) 0%nat with_dataset).
  exact with_dataset_run.
Defined.


(** X11: [ExtractedSource(data={...}, image=image1)]. *)
Lemma source_image_id_witness :
  (∃ imo, heap with_source !! 1%nat = Some imo ∧ 2%nat ∈ sources imo)
  ∧ ((None : option Z) = None →
     source_data !! "image_id" = None →
     ∀ j, _id <$> heap with_image !! 1%nat = Some (Some j) →
          _id <$> heap with_source !! 1%nat = Some (Some j)
          ∧ DBObject.__getattr__ 2%nat "image_id" with_source
            = (Ok (VInt j), with_source)).
Proof.
  apply (source_image_id_of_image with_image (Some source_data) 1%nat None None
           2%nat with_source).
  exact with_source_run.
Defined.

(** X12: [ExtractedSource(data={...}, image=Image(database=database, id=1),
    database=database)]. *)
Lemma source_needs_dataset_witness :
  ∃ w',
    ExtractedSource.new (Some source_data) (Some 2%nat) (Some Connection) None
      with_loaded_image
    = (Raise (AttributeError "'NoneType' object has no attribute 'database'"), w')
    ∧ db w' = db with_loaded_image
    ∧ heap w' !! 2%nat = Some loaded_image_object.
Proof.
  apply (source_needs_dataset_of_image with_loaded_image (Some source_data)
           2%nat loaded_image_object (Some Connection) None).
  - exact loaded_image_lookup.
  - vm_compute. reflexivity.
  - vm_compute. reflexivity.
  - vm_compute. lia.
Defined.

(** X13: [ExtractedSource(data={...}, image=image1)], given no database. *)
Lemma create_adopts_database_witness :
  ∃ l w1 o,
    construct ExtractedSource (Some source_data) (Some 1%nat) None None
      with_image = (Ok l, w1)
    ∧ heap w1 !! l = Some o ∧ database o = Some Connection.
Proof.
  apply (create_adopts_database with_image ExtractedSource source_data 1%nat
           Connection).
  - split; [by vm_compute|].
    exists image_object, 0%nat, dataset_with_image.
    split; [by vm_compute|]. split; [by vm_compute|].
    split; [vm_compute; eauto|]. split; [by vm_compute|].
    split; [by vm_compute|]. by vm_compute.
  - change (accepts (db with_image) tbl_extractedsources
              (filled_in with_image ExtractedSource (Some 1%nat) source_data)).
    refine (bool_decide_unpack _ _). vm_compute. exact I.
  - intros key Hin. cbn in Hin.
    repeat (apply elem_of_cons in Hin as [->|Hin]; [vm_compute; eauto|]).
    by apply elem_of_nil in Hin.
  - vm_compute. reflexivity.
Defined.


(** X15: [update(tau_time=2500, bogus=1)] on the image whose creation
    failed, reached through the dataset. *)
Lemma update_without_row_witness :
  DBObject.update 1%nat update_kwargs with_failed_image
  = (Raise IndexError, with_failed_image).
Proof.
  apply (update_without_row with_failed_image 1%nat failed_image_object
           Connection update_kwargs).
  - exact failed_image_lookup.
  - vm_compute. reflexivity.
  - intros i Hi. vm_compute in Hi. discriminate Hi.
Defined.

(** X16: [Image(data={... 'ds_id': 1, 'id': 7}, database=database)]
    returns an object without identity, and stores nothing. *)
Lemma image_without_dataset_witness :
  fst (Image.new (Some image_data_with_id) None (Some Connection) None
         with_dataset) = Ok 1%nat
  ∧ ∃ r w',
      Image.new (Some image_data_with_id) None (Some Connection) None
        with_dataset = (r, w')
      ∧ db w' = db with_dataset
      ∧ ∀ l, r = Ok l →
          is_Some (image_data_with_id !! "id")
          ∧ _id <$> heap w' !! l = Some None.
Proof.
  split; [vm_compute; reflexivity|].
  apply (image_without_dataset_not_stored with_dataset
           (Some image_data_with_id) (Some Connection)).
Defined.

